(** * FinQs: the rubric-based grading engine ([grade_answers.py])

    A shallow embedding of the grading engine and the properties its
    specification states about it.

    Modelling conventions.
    - A Python [str] is a list of characters, [list ascii]; a character
      is a code point below 256 (ASCII and the Latin-1 supplement), and
      the character classes below ([isspace], [lower], the regular
      expression classes [\d], [\w] and [\s]) are Python's on that range.
    - A Python [dict] used as a map is a [gmap]; question numbers are
      integers ([Z]).
    - A [.get(key, default)] on a record read from JSON is an [option]
      field with [default]; a subscript [d[key]] on a possibly missing
      key, [eval] and [int] are fallible and return [option].
    - Scores are Python floats in the source.  They are modelled by
      exact rationals ([Q]); [round(x, 1)] rounds to one decimal with
      ties to the even tenth. *)

From Stdlib Require Import QArith Qround Lqa Ascii String.
From stdpp Require Import gmap strings list fin_maps pretty.

Local Open Scope Z_scope.

(** ** Strings *)

Abbreviation str := (list ascii).

(** A string literal of the source. *)
Definition py (s : string) : str := list_ascii_of_string s.

Module Chars.

Definition code (c : ascii) : N := N_of_ascii c.

Definition between (lo hi : N) (c : ascii) : bool :=
  ((lo <=? code c) && (code c <=? hi))%N.

(** [str.isspace] on one character, which is also what [str.strip],
    [str.split] and the pattern [\s] use: TAB..CR, FS..US, space,
    NEL and the no-break space. *)
Definition isspace (c : ascii) : bool :=
  between 9 13 c || between 28 32 c
  || (code c =? 133)%N || (code c =? 160)%N.

(** The pattern [\d]: the decimal digits. *)
Definition isdecimal (c : ascii) : bool := between 48 57 c.

(** The pattern [\w]: [str.isalnum] or the underscore. *)
Definition isword (c : ascii) : bool :=
  between 48 57 c || between 65 90 c || (code c =? 95)%N
  || between 97 122 c
  || (code c =? 170)%N || (code c =? 178)%N || (code c =? 179)%N
  || (code c =? 181)%N || (code c =? 185)%N || (code c =? 186)%N
  || between 188 190 c
  || between 192 214 c || between 216 246 c || between 248 255 c.

(** The characters that [str.lower] changes: A..Z and the capital
    letters of the Latin-1 supplement. *)
Definition isupper (c : ascii) : bool :=
  between 65 90 c || (between 192 222 c && negb (code c =? 215)%N).

(** [str.lower] on one character. *)
Definition lower (c : ascii) : ascii :=
  if isupper c then ascii_of_N (code c + 32) else c.

End Chars.

Module Str.

(** [s.lower()] *)
Definition lower (s : str) : str := map Chars.lower s.

Fixpoint drop_while (p : ascii -> bool) (s : str) : str :=
  match s with
  | [] => []
  | c :: s' => if p c then drop_while p s' else s
  end.

Definition lstrip (s : str) : str := drop_while Chars.isspace s.
Definition rstrip (s : str) : str := rev (drop_while Chars.isspace (rev s)).

(** [s.strip()] *)
Definition strip (s : str) : str := rstrip (lstrip s).

(** Truth value of a string: non-empty. *)
Definition truthy (s : str) : bool :=
  match s with [] => false | _ :: _ => true end.

Definition eqb (s t : str) : bool := bool_decide (s = t).

(** [s.startswith(p)] *)
Fixpoint startswith (p s : str) : bool :=
  match p, s with
  | [], _ => true
  | a :: p', b :: s' => bool_decide (a = b) && startswith p' s'
  | _ :: _, [] => false
  end.

(** [needle in hay] *)
Fixpoint contains (needle hay : str) : bool :=
  match hay with
  | [] => startswith needle []
  | _ :: hay' => startswith needle hay || contains needle hay'
  end.

(** [s.replace(c, '')] for a one-character [c]. *)
Definition remove_char (c : ascii) (s : str) : str :=
  filter (fun d => d ≠ c) s.

(** The fields of [s] between the characters that satisfy [sep],
    empty fields included: [re.split] on a one-character class. *)
Fixpoint fields (sep : ascii -> bool) (s : str) : list str :=
  match s with
  | [] => [[]]
  | c :: s' =>
      if sep c then [] :: fields sep s'
      else match fields sep s' with
           | w :: ws => (c :: w) :: ws
           | [] => [[c]]
           end
  end.

(** The maximal non-empty runs of characters that do not satisfy
    [sep]. *)
Definition runs (sep : ascii -> bool) (s : str) : list str :=
  filter (fun w => w ≠ []) (fields sep s).

(** [s.split()] *)
Definition split (s : str) : list str := runs Chars.isspace s.

(** [sep.join(l)] *)
Fixpoint join (sep : str) (l : list str) : str :=
  match l with
  | [] => []
  | [w] => w
  | w :: ws => w ++ sep ++ join sep ws
  end.

(** Empty or made of white space only. *)
Definition whitespace_only (s : str) : bool := forallb Chars.isspace s.

(** [needle] occurs in [hay]. *)
Definition occurs_in (needle hay : str) : Prop :=
  exists pre post, hay = pre ++ needle ++ post.

(** [str(n)] for a non-negative integer. *)
Definition of_nat (n : nat) : str := py (pretty n).

End Str.

(** ** Numbers

    The float arithmetic of the source on exact rationals. *)

Module Num.

Definition of_nat (n : nat) : Q := inject_Z (Z.of_nat n).

(** Rounding to the nearest integer, ties to the even one. *)
Definition round_half_even (x : Q) : Z :=
  let f := Qfloor x in
  match (x - inject_Z f ?= 0.5)%Q with
  | Lt => f
  | Gt => f + 1
  | Eq => if Z.even f then f else f + 1
  end.

(** [round(x, 1)] *)
Definition round1 (x : Q) : Q :=
  (inject_Z (round_half_even (x * 10)) / 10)%Q.

(** [max(0, x)] *)
Definition max0 (x : Q) : Q := if Qle_bool 0 x then x else 0%Q.

(** [f"{x:.0%}"] for a non-negative [x]. *)
Definition percent0 (x : Q) : str :=
  Str.of_nat (Z.to_nat (round_half_even (x * 100))) ++ py "%".

End Num.

(** ** Regular expressions of the source *)

Module Re.

(** The longest prefix of [s] whose characters satisfy [p], and the
    rest. *)
Fixpoint span (p : ascii -> bool) (s : str) : str * str :=
  match s with
  | [] => ([], [])
  | c :: s' =>
      if p c then let '(w, r) := span p s' in (c :: w, r) else ([], s)
  end.

(** An optional character [c] at the start of [s]. *)
Definition optional (c : ascii) (s : str) : str * str :=
  match s with
  | d :: s' => if bool_decide (d = c) then ([c], s') else ([], s)
  | [] => ([], [])
  end.

(** The class [[\d,]]. *)
Definition digit_or_comma (c : ascii) : bool :=
  Chars.isdecimal c || bool_decide (c = ","%char).

(** A match of [[\d,]+\.?\d*%?] at the start of [s]: the matched text
    and what follows it.  Every part after the first is optional, so
    the greedy choice of each part is the match. *)
Definition match_number (s : str) : option (str * str) :=
  let '(head, r1) := span digit_or_comma s in
  match head with
  | [] => None
  | _ :: _ =>
      let '(dot, r2) := optional "."%char r1 in
      let '(frac, r3) := span Chars.isdecimal r2 in
      let '(pct, r4) := optional "%"%char r3 in
      Some (head ++ dot ++ frac ++ pct, r4)
  end.

(** The scan of [re.findall]: the leftmost match, then the scan of
    what follows it.  A match is never empty, so [length s] steps
    are enough. *)
Fixpoint findall_numbers_from (fuel : nat) (s : str) : list str :=
  match fuel, s with
  | O, _ | _, [] => []
  | S fuel', _ :: s' =>
      match match_number s with
      | Some (tok, rest) => tok :: findall_numbers_from fuel' rest
      | None => findall_numbers_from fuel' s'
      end
  end.

(** [re.findall(r'[\d,]+\.?\d*%?', s)] *)
Definition findall_numbers (s : str) : list str :=
  findall_numbers_from (length s) s.

(** [re.split(r'[:\n]', s)] *)
Definition split_colon_newline (s : str) : list str :=
  Str.fields (fun c => bool_decide (c = ":"%char) || bool_decide (c = "010"%char)) s.

(** [re.findall(r'\b\w+\b', s)]: the maximal runs of word
    characters. *)
Definition findall_words (s : str) : list str :=
  Str.runs (fun c => negb (Chars.isword c)) s.


(** [re.sub(r'^final answer:\s*', '', s, flags=re.IGNORECASE)] on a
    lower-cased [s]: the pattern is anchored at the start, so at most
    one occurrence is removed. *)
Definition sub_final_answer (s : str) : str :=
  let prefix := py "final answer:" in
  if Str.startswith prefix s
  then Str.drop_while Chars.isspace (drop (length prefix) s)
  else s.

End Re.

(** ** CriterionMatcher: [check_criterion] *)

Definition stop_words : list str :=
  [py "the"; py "and"; py "for"; py "that"; py "this"; py "with";
   py "from"; py "were"; py "have"; py "has"; py "was"].

(** The key words of a phrase: [[w for w in phrase.lower().split() if
    len(w) > 3 and w not in [...]]]. *)
Definition key_words (phrase : str) : list str :=
  filter (fun w => (3 < length w)%nat ∧ w ∉ stop_words)
         (Str.split (Str.lower phrase)).

(** The body of the loop over [key_phrases]: whether the phrase adds
    one to [matches]. *)
Definition phrase_matches (answer_lower phrase : str) : bool :=
  let words := key_words phrase in
  match words with
  | [] => false
  | _ :: _ =>
      let found_words :=
        length (filter (fun w => Str.contains w answer_lower = true) words) in
      Qle_bool (Num.of_nat (length words) * 0.5)%Q (Num.of_nat found_words)
  end.

(** [set(w.lower() for w in re.findall(r'\b\w+\b', text) if len(w) > 3)] *)
Definition long_words (text : str) : gset str :=
  list_to_set
    (map Str.lower
         (filter (fun w => (3 < length w)%nat) (Re.findall_words text))).

(** The pair [(is_met, evidence)].  The source also computes
    [criterion_lower], which it never reads, and never reads
    [ground_truth]. *)
Definition check_criterion (criterion_text answer ground_truth : str)
  : bool * str :=
  if negb (Str.truthy answer) || Str.eqb (Str.strip answer) []
  then (false, py "No answer provided")
  else
    let answer_lower := Str.lower answer in
    let answer_clean := Re.sub_final_answer answer_lower in
    let numbers := Re.findall_numbers criterion_text in
    if bool_decide (numbers ≠ [])
       && forallb (fun num =>
                     Str.contains (Str.remove_char ","%char num)
                                  (Str.remove_char ","%char answer_clean))
                  numbers
    then (true, py "Found required numbers: " ++ Str.join (py ", ") numbers)
    else
      let key_phrases :=
        filter (fun p => p ≠ [])
               (map Str.strip (Re.split_colon_newline criterion_text)) in
      let matches :=
        length (filter (fun p => phrase_matches answer_lower p = true)
                       key_phrases) in
      let total := length key_phrases in
      if bool_decide (0 < total)%nat
         && Qle_bool 0.6%Q (Num.of_nat matches / Num.of_nat total)%Q
      then (true, py "Found " ++ Str.of_nat matches ++ py "/"
                  ++ Str.of_nat total ++ py " key concepts from criterion")
      else
        let criterion_words := long_words criterion_text in
        let answer_words := long_words answer in
        let overlap :=
          (Num.of_nat (size (criterion_words ∩ answer_words))
           / Num.of_nat (size criterion_words))%Q in
        if bool_decide (length criterion_text < 100)%nat
           && bool_decide (criterion_words ≠ ∅)
           && Qle_bool 0.6%Q overlap
        then (true, py "Strong word overlap (" ++ Num.percent0 overlap
                    ++ py ") with criterion")
        else (false, py "Criterion not clearly met in answer").

(** ** Data model *)

(** One entry of a rubric: a dict with the keys ['operator'] and
    ['criteria']. *)
Record Criterion := {
  operator : str;
  criteria : str
}.

(** A value of the mapping built by [load_ground_truth]. *)
Record GroundTruth := {
  gt_question : str;
  gt_answer : str;
  gt_question_type : str;
  gt_expert_time : Z;
  gt_rubric : list Criterion
}.

(** A cited source: a dict read with [s.get('url', '')]. *)
Record Source := {
  url : option str;
  name : option str
}.

(** The [answer_data] of [grade_answer]: a dict read with [.get]. *)
Record AnswerData := {
  ad_question : option str;
  ad_answer : option str;
  ad_sources : option (list Source)
}.

Inductive Status := Skipped | Answered | Attempted.
Inductive SourcesQuality := Poor | Acceptable | Good.
Inductive Difficulty := Easy | Medium | Hard | VeryHard.

Global Instance Status_eq_dec : EqDecision Status.
Proof. solve_decision. Defined.
Global Instance Difficulty_eq_dec : EqDecision Difficulty.
Proof. solve_decision. Defined.

Record RubricResult := {
  rr_type : str;
  rr_criteria : str;
  rr_met : bool;
  rr_evidence : str
}.

Record GradingResult := {
  question_num : Z;
  question_type : str;
  difficulty : Difficulty;
  expert_time_mins : Z;
  status : Status;
  correctness_score : Q;
  has_contradictions : bool;
  sources_quality : SourcesQuality;
  rubric_results : list RubricResult;
  final_score : Q;
  comments : str
}.

(** ** DifficultyClassifier *)

Definition categorize_difficulty (question_type : str) (expert_time : Z)
  : Difficulty :=
  if expert_time <=? 5 then Easy
  else if expert_time <=? 15 then Medium
  else if expert_time <=? 30 then Hard
  else VeryHard.

(** ** AnswerGrader: [grade_answer] *)

(** The marker of a complete answer. *)
Definition FINAL_ANSWER : str := py "FINAL ANSWER:".

(** "Determine status" *)
Definition determine_status (answer_text : str) : Status :=
  if negb (Str.truthy answer_text) || Str.eqb (Str.strip answer_text) []
  then Skipped
  else if Str.contains FINAL_ANSWER answer_text then Answered
  else Attempted.

Definition with_operator (op : str) (rubric : list Criterion)
  : list Criterion :=
  filter (fun r => operator r = op) rubric.

Definition rubric_result (type : str) (criterion : Criterion)
    (answer_text ground_truth : str) : RubricResult :=
  let '(is_met, evidence) :=
    check_criterion (criteria criterion) answer_text ground_truth in
  {| rr_type := type; rr_criteria := criteria criterion;
     rr_met := is_met; rr_evidence := evidence |}.

(** "Check correctness criteria": the loop, on the state
    [(rubric_results, met_count)]. *)
Definition check_correctness (answer_text ground_truth : str)
    (correctness_criteria : list Criterion)
  : list RubricResult * nat :=
  foldl (fun '(rubric_results, met_count) criterion =>
           let r := rubric_result (py "correctness") criterion
                                  answer_text ground_truth in
           (rubric_results ++ [r],
            if rr_met r then S met_count else met_count))
        ([], O) correctness_criteria.

(** "Calculate correctness score" *)
Definition calculate_correctness_score (met_count n_criteria : nat)
    (status : Status) : Q :=
  if bool_decide (0 < n_criteria)%nat
  then (Num.of_nat met_count / Num.of_nat n_criteria * 100)%Q
  else if bool_decide (status = Skipped) then 0%Q else 50%Q.

(** "Check for contradictions": the loop, on the state
    [(rubric_results, has_contradictions)]. *)
Definition check_contradictions (answer_text ground_truth : str)
    (status : Status) (rubric_results : list RubricResult)
    (contradiction_criteria : list Criterion)
  : list RubricResult * bool :=
  foldl (fun '(rubric_results, has_contradictions) criterion =>
           let r := rubric_result (py "contradiction") criterion
                                  answer_text ground_truth in
           (rubric_results ++ [r],
            if negb (rr_met r) && bool_decide (status = Answered)
            then true else has_contradictions))
        (rubric_results, false) contradiction_criteria.

(** "Penalize for contradictions" *)
Definition penalize (has_contradictions : bool) (correctness_score : Q) : Q :=
  if has_contradictions && negb (Qle_bool 30 correctness_score)
  then Num.max0 (correctness_score - 20)
  else correctness_score.

Definition official (s : Source) : bool :=
  let u := Str.lower (default [] (url s)) in
  Str.contains (py "sec.gov") u || Str.contains (py "investor") u
  || Str.contains (py "ir.") u.

(** "Grade sources quality" *)
Definition grade_sources (sources : list Source) : SourcesQuality :=
  if bool_decide (sources = []) then Poor
  else if bool_decide (2 <= length sources)%nat && existsb official sources
  then Good
  else if bool_decide (1 <= length sources)%nat then Acceptable
  else Poor.

Definition show_quality (q : SourcesQuality) : str :=
  match q with
  | Poor => py "Poor" | Acceptable => py "Acceptable" | Good => py "Good"
  end.

(** "Adjust score based on status": [(final_score, comments)]. *)
Definition adjust_score (status : Status) (correctness_score : Q)
    (has_contradictions : bool) (met_count n_criteria : nat)
    (sources_quality : SourcesQuality) : Q * str :=
  let met := Str.of_nat met_count ++ py "/" ++ Str.of_nat n_criteria
             ++ py " rubric criteria." in
  match status with
  | Skipped => (0%Q, py "Question was skipped - no answer provided")
  | Attempted =>
      ((correctness_score * 0.5)%Q,
       py "Answer was attempted but may not be complete. Met " ++ met)
  | Answered =>
      (correctness_score,
       (if has_contradictions
        then py "Answer provided but has contradictions. Met "
        else py "Answer provided. Met ")
       ++ met ++ py " Sources: " ++ show_quality sources_quality ++ py ".")
  end.

(** The local variables of [grade_answer] when it returns. *)
Record Grading := {
  g_status : Status;
  g_met_count : nat;
  g_n_criteria : nat;
  g_score_before_penalty : Q;
  g_has_contradictions : bool;
  g_correctness_score : Q;
  g_sources_quality : SourcesQuality;
  g_rubric_results : list RubricResult;
  g_final_score : Q;
  g_comments : str
}.

Definition grading (answer_data : AnswerData) (ground_truth_data : GroundTruth)
  : Grading :=
  let answer_text := default [] (ad_answer answer_data) in
  let sources := default [] (ad_sources answer_data) in
  let rubric := gt_rubric ground_truth_data in
  let status := determine_status answer_text in
  let correctness_criteria := with_operator (py "correctness") rubric in
  let contradiction_criteria := with_operator (py "contradiction") rubric in
  let '(rubric_results, met_count) :=
    check_correctness answer_text (gt_answer ground_truth_data)
                      correctness_criteria in
  let score0 :=
    calculate_correctness_score met_count (length correctness_criteria)
                                status in
  let '(rubric_results, has_contradictions) :=
    check_contradictions answer_text (gt_answer ground_truth_data) status
                         rubric_results contradiction_criteria in
  let correctness_score := penalize has_contradictions score0 in
  let sources_quality := grade_sources sources in
  let '(final_score, comments) :=
    adjust_score status correctness_score has_contradictions met_count
                 (length correctness_criteria) sources_quality in
  {| g_status := status; g_met_count := met_count;
     g_n_criteria := length correctness_criteria;
     g_score_before_penalty := score0;
     g_has_contradictions := has_contradictions;
     g_correctness_score := correctness_score;
     g_sources_quality := sources_quality;
     g_rubric_results := rubric_results;
     g_final_score := final_score; g_comments := comments |}.

Definition grade_answer (question_num : Z) (answer_data : AnswerData)
    (ground_truth_data : GroundTruth) : GradingResult :=
  let g := grading answer_data ground_truth_data in
  {| question_num := question_num;
     question_type := gt_question_type ground_truth_data;
     difficulty :=
       categorize_difficulty (gt_question_type ground_truth_data)
                             (gt_expert_time ground_truth_data);
     expert_time_mins := gt_expert_time ground_truth_data;
     status := g_status g;
     correctness_score := Num.round1 (g_correctness_score g);
     has_contradictions := g_has_contradictions g;
     sources_quality := g_sources_quality g;
     rubric_results := g_rubric_results g;
     final_score := Num.round1 (g_final_score g);
     comments := g_comments g |}.

(** ** ReportAggregator: [calculate_summary] *)

Record Summary := {
  total_questions : nat;
  answered : nat;
  attempted : nat;
  skipped : nat;
  average_score : Q;
  by_difficulty : list (Difficulty * Q);
  by_question_type : list (str * Q)
}.

Definition count_status (s : Status) (graded_results : list GradingResult)
  : nat :=
  length (filter (fun r => status r = s) graded_results).

(** [sum(scores)] *)
Definition sum (scores : list Q) : Q := foldl Qplus 0%Q scores.

(** [by_key[key].append(score)] on a [defaultdict(list)], whose keys
    stay in the order of their first insertion. *)
Fixpoint append_to {K} `{EqDecision K} (key : K) (score : Q)
    (groups : list (K * list Q)) : list (K * list Q) :=
  match groups with
  | [] => [(key, [score])]
  | (k, scores) :: rest =>
      if decide (k = key) then (k, scores ++ [score]) :: rest
      else (k, scores) :: append_to key score rest
  end.

Definition mean_by {K} `{EqDecision K} (key : GradingResult -> K)
    (graded_results : list GradingResult) : list (K * Q) :=
  let groups :=
    foldl (fun by_key r => append_to (key r) (final_score r) by_key)
          [] graded_results in
  map (fun '(k, scores) =>
         (k, match scores with
             | [] => 0%Q
             | _ :: _ =>
                 Num.round1 (sum scores / Num.of_nat (length scores))
             end))
      groups.

Definition calculate_summary (graded_results : list GradingResult)
  : Summary :=
  let total := length graded_results in
  let avg_score :=
    if bool_decide (0 < total)%nat
    then (sum (map final_score graded_results) / Num.of_nat total)%Q
    else 0%Q in
  {| total_questions := total;
     answered := count_status Answered graded_results;
     attempted := count_status Attempted graded_results;
     skipped := count_status Skipped graded_results;
     average_score := Num.round1 avg_score;
     by_difficulty := mean_by difficulty graded_results;
     by_question_type := mean_by question_type graded_results |}.

(** ** GroundTruthLoader: [load_ground_truth] *)

(** A row of the table as [csv.DictReader] yields it.  [Rubric] is the
    outcome of [eval(row['Rubric'])] and [Expert_time] that of
    [int(row['Expert time (mins)'])]: [None] when the call raises. *)
Record Row := {
  Question : str;
  Answer : str;
  Rubric : option (list Criterion);
  Question_Type : str;
  Expert_time : option Z
}.

(** The loop over the rows, on the state [(question_num,
    ground_truth)]; an exception ends the load. *)
Fixpoint load_rows (question_num : Z) (ground_truth : gmap Z GroundTruth)
    (rows : list Row) : option (gmap Z GroundTruth) :=
  match rows with
  | [] => Some ground_truth
  | row :: rows' =>
      if Str.truthy (Question row) then
        rubric ← Rubric row;
        expert_time ← Expert_time row;
        load_rows (question_num + 1)
          (<[question_num :=
               {| gt_question := Question row;
                  gt_answer := Answer row;
                  gt_question_type := Question_Type row;
                  gt_expert_time := expert_time;
                  gt_rubric := rubric |}]> ground_truth)
          rows'
      else load_rows question_num ground_truth rows'
  end.

Definition load_ground_truth (rows : list Row) : option (gmap Z GroundTruth) :=
  load_rows 1 ∅ rows.

(** ** AnswerStore: [load_answers] *)

(** An element of the JSON array.  [item['question_number']] and
    [item['question']] raise on a missing key; ['answer'] and
    ['sources'] are read with [.get]. *)
Record AnswerItem := {
  item_question_number : option Z;
  item_question : option str;
  item_answer : option str;
  item_sources : option (list Source)
}.

(** The dict stored for an element: [item.get('answer', '')] and
    [item.get('sources', [])]. *)
Definition stored (question : str) (item : AnswerItem) : AnswerData :=
  {| ad_question := Some question;
     ad_answer := Some (default [] (item_answer item));
     ad_sources := Some (default [] (item_sources item)) |}.

Fixpoint load_items (answers : gmap Z AnswerData)
    (answers_list : list AnswerItem) : option (gmap Z AnswerData) :=
  match answers_list with
  | [] => Some answers
  | item :: rest =>
      question ← item_question item;
      number ← item_question_number item;
      load_items (<[number := stored question item]> answers) rest
  end.

Definition load_answers (answers_list : list AnswerItem)
  : option (gmap Z AnswerData) :=
  load_items ∅ answers_list.

(** ** The grading run: [main] *)

Record Report := {
  questions : list GradingResult;
  summary : Summary
}.

(** [{'answer': '', 'sources': []}] *)
Definition no_answer : AnswerData :=
  {| ad_question := None; ad_answer := Some []; ad_sources := Some [] |}.

(** The loop [for q_num in range(1, 51)]. *)
Definition grade_questions (ground_truth : gmap Z GroundTruth)
    (answers : gmap Z AnswerData) : list GradingResult :=
  foldl (fun graded_results q_num =>
           match ground_truth !! q_num with
           | Some ground_truth_data =>
               let answer_data := default no_answer (answers !! q_num) in
               graded_results
                 ++ [grade_answer q_num answer_data ground_truth_data]
           | None => graded_results
           end)
        [] (seqZ 1 50).

Definition report (ground_truth : gmap Z GroundTruth)
    (answers : gmap Z AnswerData) : Report :=
  let graded_results := grade_questions ground_truth answers in
  {| questions := graded_results;
     summary := calculate_summary graded_results |}.

(** [main] on the rows of [public.csv] and the elements of
    [answers.json]: the object written to [grading_results.json]. *)
Definition main (rows : list Row) (answers_list : list AnswerItem)
  : option Report :=
  ground_truth ← load_ground_truth rows;
  answers ← load_answers answers_list;
  Some (report ground_truth answers).

(** ** The specification's wording, for comparison *)

(** The status of an answer text as the specification words it: the
    marker is looked for without regard to case. *)
Definition spec_status (answer_text : str) : Status :=
  if Str.whitespace_only answer_text then Skipped
  else if Str.contains (Str.lower FINAL_ANSWER) (Str.lower answer_text)
  then Answered
  else Attempted.

(** ** Notions used in the statements *)

(** [ground_truth_data] with another reference answer. *)
Definition with_answer (g : GroundTruth) (reference : str) : GroundTruth :=
  {| gt_question := gt_question g;
     gt_answer := reference;
     gt_question_type := gt_question_type g;
     gt_expert_time := gt_expert_time g;
     gt_rubric := gt_rubric g |}.

(** What [check_criterion] says of a criterion of the rubric. *)
Definition criterion_met (answer_text reference : str)
    (criterion : Criterion) : bool :=
  fst (check_criterion (criteria criterion) answer_text reference).

(** An answer record with the given text and no sources. *)
Definition answer_of (text : str) : AnswerData :=
  {| ad_question := None; ad_answer := Some text; ad_sources := Some [] |}.

(** The rows that [load_ground_truth] numbers: those with a non-empty
    Question field, in the order of the table. *)
Definition numbered_rows (rows : list Row) : list Row :=
  List.filter (fun row => Str.truthy (Question row)) rows.

(** The record stored for a row. *)
Definition loaded_from (row : Row) (g : GroundTruth) : Prop :=
  gt_question g = Question row
  /\ gt_answer g = Answer row
  /\ gt_question_type g = Question_Type row
  /\ Expert_time row = Some (gt_expert_time g)
  /\ Rubric row = Some (gt_rubric g).

(** The row's rubric and expert time can be read. *)
Definition well_formed_row (row : Row) : Prop :=
  is_Some (Rubric row) /\ is_Some (Expert_time row).

(** The element has the two keys that are read by subscript. *)
Definition well_formed_item (item : AnswerItem) : Prop :=
  is_Some (item_question_number item) /\ is_Some (item_question item).


(** The result that the grading loop appends for [q_num], if any. *)
Definition graded (ground_truth : gmap Z GroundTruth)
    (answers : gmap Z AnswerData) (q_num : Z) : option GradingResult :=
  match ground_truth !! q_num with
  | Some ground_truth_data =>
      Some (grade_answer q_num (default no_answer (answers !! q_num))
                         ground_truth_data)
  | None => None
  end.

(** ** Sample data *)

Definition correctness (text : string) : Criterion :=
  {| operator := py "correctness"; criteria := py text |}.

Definition contradiction (text : string) : Criterion :=
  {| operator := py "contradiction"; criteria := py text |}.

Definition truth_with (rubric : list Criterion) : GroundTruth :=
  {| gt_question := py "How did revenue develop in fiscal 2023?";
     gt_answer := py "Revenue grew 44.7% to $125 billion";
     gt_question_type := py "Financial Analysis";
     gt_expert_time := 12;
     gt_rubric := rubric |}.

(** Four correctness criteria; the sample answers below meet the
    first three. *)
Definition rubric_3_of_4 : list Criterion :=
  [correctness "Revenue grew 44.7%";
   correctness "Revenue was $125 billion";
   correctness "Operating margin of 12%";
   correctness "Dividend of 3.5 per share"].

Definition complete_answer : AnswerData :=
  answer_of (py "FINAL ANSWER: Revenue grew 44.7% to $125 billion, operating margin 12%").

Definition partial_answer : AnswerData :=
  answer_of (py "Revenue grew 44.7% to $125 billion, operating margin 12%").

(** Five correctness criteria, of which [weak_answer] meets the first,
    and a contradiction criterion that it does not meet. *)
Definition rubric_1_of_5 : list Criterion :=
  [correctness "Revenue grew 44.7%";
   correctness "Dividend of 3.5 per share";
   correctness "Headcount fell 8.1%";
   correctness "Capex reached 77.7 million";
   correctness "Guidance raised twice";
   contradiction "Revenue declined 3.3%"].

Definition weak_answer : AnswerData :=
  answer_of (py "FINAL ANSWER: Revenue grew 44.7%").

Definition row_of (question : string) (rubric : list Criterion) : Row :=
  {| Question := py question;
     Answer := py "Revenue grew 44.7% to $125 billion";
     Rubric := Some rubric;
     Question_Type := py "Financial Analysis";
     Expert_time := Some 12 |}.

(** A table with an empty row between two questions. *)
Definition sample_rows : list Row :=
  [row_of "How did revenue develop?" rubric_3_of_4;
   row_of "" [];
   row_of "What was the dividend?" rubric_1_of_5].

Definition item_of (number : Z) (answer : option string)
    (sources : option (list Source)) : AnswerItem :=
  {| item_question_number := Some number;
     item_question := Some (py "How did revenue develop?");
     item_answer := py <$> answer;
     item_sources := sources |}.

Definition filing : Source :=
  {| url := Some (py "https://www.sec.gov/Archives/edgar/data/1/10-K.htm");
     name := Some (py "Form 10-K") |}.

(** A store in which question 5 is supplied twice. *)
Definition sample_items : list AnswerItem :=
  [item_of 5 (Some "Revenue grew") (Some [filing]);
   item_of 3 (Some "FINAL ANSWER: 12%") None;
   item_of 5 None None;
   item_of 7 None (Some [filing; filing])].

(** A table of 51 questions. *)
Definition rows_51 : list Row :=
  replicate 51 (row_of "How did revenue develop?" rubric_3_of_4).

(** ** The tiers as numbers *)

(** The place of a difficulty tier, from Easy to Very Hard. *)
Definition difficulty_rank (d : Difficulty) : nat :=
  match d with Easy => 0 | Medium => 1 | Hard => 2 | VeryHard => 3 end.

(** The place of a sources tier, from Poor to Good. *)
Definition quality_rank (q : SourcesQuality) : nat :=
  match q with Poor => 0 | Acceptable => 1 | Good => 2 end.

(** The text of the answer that the grading loop grades for [q_num]:
    the empty text when the store has no entry. *)
Definition submitted_text (answers : gmap Z AnswerData) (q_num : Z) : str :=
  default [] (ad_answer (default no_answer (answers !! q_num))).

(** [ground_truth_data] with another rubric. *)
Definition with_rubric (g : GroundTruth) (rubric : list Criterion)
  : GroundTruth :=
  {| gt_question := gt_question g;
     gt_answer := gt_answer g;
     gt_question_type := gt_question_type g;
     gt_expert_time := gt_expert_time g;
     gt_rubric := rubric |}.

(** The criteria that [grade_answer] reads: those of the two operators. *)
Definition graded_criteria (rubric : list Criterion) : list Criterion :=
  filter (fun r => operator r = py "correctness"
                   \/ operator r = py "contradiction") rubric.

(** ** The accumulation scripts ([update_answers.py] and the like)

    Each script reads the JSON array, runs [answers.extend(new_answers)]
    (or [append]) and writes the array back. *)

Definition extend (answers new_answers : list AnswerItem) : list AnswerItem :=
  answers ++ new_answers.

(** ** Token-limit classifier: [utils.py] *)

Definition token_limit_patterns : list str :=
  [py "token limit";
   py "tokens_exceeded_error";
   py "context length";
   py "maximum context length";
   py "token_limit_exceeded";
   py "maximum tokens";
   py "too many tokens";
   py "prompt is too long";
   py "maximum prompt length";
   py "maximum number of tokens allowed";
   py "input length and `max_tokens` exceed context";
   py "error code: 400";
   py "error code: 413";
   py "string too long";
   py "413";
   py "request exceeds the maximum size";
   py "request_too_large";
   py "too many total text bytes"].

Definition is_token_limit_error (error_msg : str) : bool :=
  existsb (fun pattern => Str.contains pattern (Str.lower error_msg))
          token_limit_patterns.

(** ** Filing search: [tools.py] *)

(** The slice [l[:n]]: a negative [n] counts from the end. *)
Definition slice_to {A} (l : list A) (n : Z) : list A :=
  if n <? 0 then take (Z.to_nat (Z.of_nat (length l) + n)) l
  else take (Z.to_nat n) l.

(** What [EDGARSearch.search] returns from the decoded response:
    [result.get("filings", [])[:int(top_n_results)]]. *)
Definition search_results {A} (filings : option (list A))
    (top_n_results : Z) : list A :=
  slice_to (default [] filings) top_n_results.

(** ** Notions used in the further properties *)

(** The characters of a numeric token. *)
Definition numeric_char (c : ascii) : bool :=
  Re.digit_or_comma c || bool_decide (c = "."%char)
  || bool_decide (c = "%"%char).

(** The status that the grading loop gives the number [q_num], if it
    grades it. *)
Definition status_at (ground_truth : gmap Z GroundTruth)
    (answers : gmap Z AnswerData) (q_num : Z) : option Status :=
  match ground_truth !! q_num with
  | Some _ => Some (determine_status (submitted_text answers q_num))
  | None => None
  end.

(** A ground truth of one question. *)
Definition one_question : gmap Z GroundTruth :=
  {[1 := truth_with rubric_3_of_4]}.

(** * The embedding on concrete inputs *)

Example lower_marker :
  Str.lower (py "FINAL Answer: 44.7%") = py "final answer: 44.7%".
Proof. reflexivity. Qed.

Example strip_spaces : Str.strip (py "  a b  ") = py "a b".
Proof. reflexivity. Qed.

Example split_words :
  Str.split (py " Revenue  grew 44.7% ")
  = [py "Revenue"; py "grew"; py "44.7%"].
Proof. vm_compute. reflexivity. Qed.

Example str_of_120 : Str.of_nat 120 = py "120".
Proof. vm_compute. reflexivity. Qed.

Example round1_ties :
  (Num.round1 6.25 == 6.2 /\ Num.round1 6.35 == 6.4 /\ Num.round1 (100 # 3) == 33.3)%Q.
Proof. repeat split. Qed.

(** The number pattern also matches a lone comma, and a second dot
    starts a new token. *)
Example numbers_of_text :
  Re.findall_numbers (py "Revenue of $1,234.5 grew 44.7%, to 1.2.3")
  = [py "1,234.5"; py "44.7%"; py ","; py "1.2"; py "3"].
Proof. vm_compute. reflexivity. Qed.

Example key_phrase_match :
  check_criterion (py "Revenue grew strongly") (py "revenue grew a lot") []
  = (true, py "Found 1/1 key concepts from criterion").
Proof. vm_compute. reflexivity. Qed.

Example word_overlap_match :
  check_criterion (py "growth-rate nice") (py "Growth Rate") []
  = (true, py "Strong word overlap (67%) with criterion").
Proof. vm_compute. reflexivity. Qed.

Example lone_comma_match :
  check_criterion (py "Revenue, profit") (py "nothing") []
  = (true, py "Found required numbers: ,").
Proof. vm_compute. reflexivity. Qed.

Example difficulty_boundaries :
  map (categorize_difficulty []) [5; 15; 30; 31]
  = [Easy; Medium; Hard; VeryHard].
Proof. reflexivity. Qed.

Example sources_tiers :
  grade_sources [filing; {| url := Some (py "https://example.com"); name := None |}]
  = Good
  /\ grade_sources [{| url := Some (py "https://example.com"); name := None |}]
     = Acceptable
  /\ grade_sources [] = Poor.
Proof. vm_compute. repeat split. Qed.

Example complete_answer_comments :
  comments (grade_answer 1 complete_answer (truth_with rubric_3_of_4))
  = py "Answer provided. Met 3/4 rubric criteria. Sources: Poor.".
Proof. vm_compute. reflexivity. Qed.

(** * Properties *)

(** ** Strings *)

Section StrFacts.

Implicit Types (s t p : str) (c : ascii).

Lemma drop_while_nil f s :
  Str.drop_while f s = [] <-> forallb f s = true.
Proof.
  induction s as [|c s IH]; simpl; [tauto|].
  destruct (f c); simpl; [exact IH|]. split; discriminate.
Qed.

Lemma drop_while_head f s c t :
  Str.drop_while f s = c :: t -> f c = false.
Proof.
  induction s as [|d s IH]; simpl; [discriminate|].
  destruct (f d) eqn:E; [exact IH|]. intros [= -> _]. exact E.
Qed.


Lemma forallb_rev f s : forallb f (rev s) = forallb f s.
Proof.
  induction s as [|c s IH]; simpl; [reflexivity|].
  rewrite forallb_app, IH. simpl. rewrite andb_true_r. apply andb_comm.
Qed.

(** [s.strip() == ""] holds exactly for the strings made of white
    space. *)
Lemma strip_nil s : Str.strip s = [] <-> Str.whitespace_only s = true.
Proof.
  unfold Str.strip, Str.rstrip, Str.lstrip, Str.whitespace_only. split.
  - intros H. apply (f_equal (@rev ascii)) in H.
    rewrite rev_involutive in H. simpl in H.
    apply drop_while_nil in H. rewrite forallb_rev in H.
    destruct (Str.drop_while Chars.isspace s) as [|c t] eqn:E.
    + apply drop_while_nil, E.
    + apply drop_while_head in E. simpl in H. rewrite E in H. discriminate.
  - intros H. apply drop_while_nil in H. rewrite H. reflexivity.
Qed.

(** The test [not s or s.strip() == ""]. *)
Lemma blank_test s :
  negb (Str.truthy s) || Str.eqb (Str.strip s) [] = Str.whitespace_only s.
Proof.
  unfold Str.eqb. destruct (Str.whitespace_only s) eqn:E.
  - apply strip_nil in E. rewrite E.
    rewrite bool_decide_eq_true_2 by reflexivity. apply orb_true_r.
  - destruct s as [|c s]; [discriminate|]. simpl.
    apply bool_decide_eq_false_2. intros H. apply strip_nil in H.
    congruence.
Qed.

Lemma startswith_spec p s :
  Str.startswith p s = true <-> exists t, s = p ++ t.
Proof.
  revert s. induction p as [|a p IH]; intros s; simpl.
  - split; eauto.
  - destruct s as [|b s].
    + split; [discriminate|]. intros [t [=]].
    + rewrite andb_true_iff, bool_decide_eq_true, IH. split.
      * intros [-> [t ->]]. eauto.
      * intros [t [= -> ->]]. eauto.
Qed.

(** [needle in hay] *)
Lemma contains_spec p s :
  Str.contains p s = true <-> Str.occurs_in p s.
Proof.
  unfold Str.occurs_in. induction s as [|c s IH]; simpl.
  - rewrite startswith_spec. split.
    + intros [t Ht]. exists [], t. exact Ht.
    + intros (pre & post & H). symmetry in H.
      apply app_eq_nil in H as [-> H]. apply app_eq_nil in H as [-> ->].
      exists []. reflexivity.
  - rewrite orb_true_iff, IH, startswith_spec. split.
    + intros [[t Ht]|(pre & post & Ht)].
      * exists [], t. exact Ht.
      * exists (c :: pre), post. rewrite Ht. reflexivity.
    + intros ([|d pre] & post & Ht); simpl in Ht.
      * left. eauto.
      * right. injection Ht as -> ->. eauto.
Qed.


End StrFacts.

(** ** Numbers *)

Section NumFacts.

Local Open Scope Q_scope.

Lemma of_nat_nonneg n : 0 <= Num.of_nat n.
Proof. unfold Num.of_nat. rewrite <- (Zle_Qle 0). lia. Qed.

(** A ratio of a part to a non-empty whole, as a percentage. *)
Lemma ratio_bounds m n :
  (0 < n)%nat -> (m <= n)%nat ->
  0 <= Num.of_nat m / Num.of_nat n * 100 <= 100.
Proof.
  intros Hn Hm. pose proof (of_nat_nonneg m) as H1. unfold Num.of_nat in *.
  assert (H0 : 0 < inject_Z (Z.of_nat n)).
  { rewrite <- (Zlt_Qlt 0). lia. }
  assert (H2 : inject_Z (Z.of_nat m) <= inject_Z (Z.of_nat n)).
  { rewrite <- Zle_Qle. lia. }
  split.
  - apply Qmult_le_0_compat; [|discriminate].
    apply Qle_shift_div_l; [exact H0|]. rewrite Qmult_0_l. exact H1.
  - apply Qle_trans with (1 * 100); [|discriminate].
    apply Qmult_le_compat_r; [|discriminate].
    apply Qle_shift_div_r; [exact H0|]. rewrite Qmult_1_l. exact H2.
Qed.

Global Instance round_half_even_comp :
  Proper (Qeq ==> eq) Num.round_half_even.
Proof.
  intros x y E. unfold Num.round_half_even.
  rewrite (Qfloor_comp _ _ E).
  replace (x - inject_Z (Qfloor y) ?= 0.5)
    with (y - inject_Z (Qfloor y) ?= 0.5); [reflexivity|].
  apply Qcompare_comp; [rewrite E|]; reflexivity.
Qed.

Global Instance round1_comp : Proper (Qeq ==> Qeq) Num.round1.
Proof. intros x y E. unfold Num.round1. rewrite E. reflexivity. Qed.

(** Rounding to the nearest integer stays between integer bounds. *)
Lemma round_half_even_bounds x (lo hi : Z) :
  inject_Z lo <= x <= inject_Z hi ->
  (lo <= Num.round_half_even x <= hi)%Z.
Proof.
  intros [Hlo Hhi]. unfold Num.round_half_even.
  pose proof (Qfloor_le x) as Hf.
  assert (Hl : (lo <= Qfloor x)%Z).
  { rewrite <- (Qfloor_Z lo). apply Qfloor_resp_le, Hlo. }
  assert (Hh : (Qfloor x <= hi)%Z).
  { rewrite <- (Qfloor_Z hi). apply Qfloor_resp_le, Hhi. }
  assert (Hup : 0.5 <= x - inject_Z (Qfloor x) -> (Qfloor x + 1 <= hi)%Z).
  { intros H. apply Z.le_succ_l. rewrite Zlt_Qlt. lra. }
  destruct (x - inject_Z (Qfloor x) ?= 0.5) eqn:E.
  - apply Qeq_alt in E. destruct (Z.even _); [lia|].
    split; [lia|]. apply Hup. rewrite E. apply Qle_refl.
  - lia.
  - split; [lia|]. apply Hup, Qlt_le_weak. apply Qgt_alt in E. exact E.
Qed.

(** [round(x, 1)] keeps a score within the scale. *)
Lemma round1_bounds x : 0 <= x <= 100 -> 0 <= Num.round1 x <= 100.
Proof.
  intros [H0 H1]. unfold Num.round1.
  destruct (round_half_even_bounds (x * 10) 0 1000) as [Hl Hh].
  { change (inject_Z 0) with 0. change (inject_Z 1000) with 1000. lra. }
  rewrite Zle_Qle in Hl, Hh.
  change (inject_Z 0) with 0 in Hl. change (inject_Z 1000) with 1000 in Hh.
  split.
  - apply Qle_shift_div_l; [reflexivity|]. lra.
  - apply Qle_shift_div_r; [reflexivity|]. lra.
Qed.

Lemma max0_spec x :
  (0 <= x -> Num.max0 x = x) /\ (x < 0 -> Num.max0 x = 0).
Proof.
  unfold Num.max0. destruct (Qle_bool 0 x) eqn:E.
  - apply Qle_bool_iff in E. split; [reflexivity|]. lra.
  - split; [|reflexivity]. intros H. apply Qle_bool_iff in H. congruence.
Qed.

Lemma max0_bounds x : x <= 100 -> 0 <= Num.max0 x <= 100.
Proof.
  intros H. destruct (max0_spec x) as [Hp Hn].
  destruct (Qlt_le_dec x 0) as [L|L].
  - rewrite (Hn L). lra.
  - rewrite (Hp L). lra.
Qed.

Lemma calculate_correctness_score_bounds met_count n status :
  (met_count <= n)%nat ->
  0 <= calculate_correctness_score met_count n status <= 100.
Proof.
  intros H. unfold calculate_correctness_score. case_bool_decide.
  - apply ratio_bounds; assumption.
  - case_bool_decide; lra.
Qed.

(** The test [correctness_score < 30]. *)
Lemma below_30 x : negb (Qle_bool 30 x) = true <-> x < 30.
Proof.
  rewrite negb_true_iff, <- not_true_iff_false, Qle_bool_iff.
  split; [apply Qnot_le_lt|apply Qlt_not_le].
Qed.

Lemma penalize_bounds flag x : 0 <= x <= 100 -> 0 <= penalize flag x <= 100.
Proof.
  intros H. unfold penalize.
  destruct (flag && negb (Qle_bool 30 x)); [|exact H].
  apply max0_bounds. lra.
Qed.

End NumFacts.

(** ** CriterionMatcher *)

(** C6: for every criterion text, [check_criterion] on an empty or
    whitespace-only answer text returns [met = false] with the
    evidence exactly "No answer provided": the first test of the
    function returns before any heuristic is tried. *)
Theorem check_criterion_no_answer criterion_text answer ground_truth :
  Str.whitespace_only answer = true ->
  check_criterion criterion_text answer ground_truth
  = (false, py "No answer provided").
Proof.
  intros H. unfold check_criterion. rewrite blank_test, H. reflexivity.
Qed.

Lemma check_criterion_no_answer_witness :
  Str.whitespace_only [" "; "009"; "010"; " "]%char = true
  /\ check_criterion (py "Revenue grew 44.7%") [" "; "009"; "010"; " "]%char
                     (py "Revenue grew 44.7% year over year")
     = (false, py "No answer provided").
Proof.
  split; [reflexivity|].
  apply (check_criterion_no_answer _ [" "; "009"; "010"; " "]%char).
  reflexivity.
Defined.

(** C10: the result of [check_criterion], boolean and evidence, does
    not depend on the reference answer it is passed; neither does the
    loop over the contradiction criteria, nor the whole grading
    result. *)
Theorem reference_answer_unused :
  (forall criterion_text answer g1 g2,
     check_criterion criterion_text answer g1
     = check_criterion criterion_text answer g2)
  /\ (forall answer g1 g2 status results contradiction_criteria,
        check_contradictions answer g1 status results contradiction_criteria
        = check_contradictions answer g2 status results
                               contradiction_criteria)
  /\ (forall q answer_data ground_truth_data reference,
        grade_answer q answer_data ground_truth_data
        = grade_answer q answer_data
                       (with_answer ground_truth_data reference)).
Proof. repeat split. Qed.

Section Scan.

Implicit Types (s t : str).

Lemma span_length f s : (length (Re.span f s).2 <= length s)%nat.
Proof.
  induction s as [|c s IH]; simpl; [lia|].
  destruct (f c); [|simpl; lia].
  destruct (Re.span f s). simpl in *. lia.
Qed.

Lemma span_app f s : (Re.span f s).1 ++ (Re.span f s).2 = s.
Proof.
  induction s as [|c s IH]; simpl; [reflexivity|].
  destruct (f c); [|reflexivity].
  destruct (Re.span f s). simpl in *. congruence.
Qed.

Lemma optional_length c s : (length (Re.optional c s).2 <= length s)%nat.
Proof.
  destruct s as [|d s]; simpl; [lia|].
  case_bool_decide; simpl; lia.
Qed.

(** A match of the number pattern consumes at least one character. *)
Lemma match_number_shorter s token rest :
  Re.match_number s = Some (token, rest) ->
  (length rest < length s)%nat.
Proof.
  unfold Re.match_number.
  pose proof (span_app Re.digit_or_comma s) as Happ.
  pose proof (span_length Re.digit_or_comma s) as H1.
  destruct (Re.span Re.digit_or_comma s) as [head r1]. simpl in *.
  destruct head as [|h head]; [discriminate|].
  pose proof (optional_length "."%char r1) as H2.
  destruct (Re.optional "."%char r1) as [dot r2]. simpl in *.
  pose proof (span_length Chars.isdecimal r2) as H3.
  destruct (Re.span Chars.isdecimal r2) as [frac r3]. simpl in *.
  pose proof (optional_length "%"%char r3) as H4.
  destruct (Re.optional "%"%char r3) as [pct r4]. simpl in *.
  intros [= _ <-]. subst s. simpl. rewrite length_app. lia.
Qed.

(** The scan of [findall_numbers] ends within [length s] steps: more
    steps give the same tokens. *)
Lemma findall_numbers_fuel fuel : forall s,
  (length s <= fuel)%nat ->
  Re.findall_numbers_from fuel s = Re.findall_numbers s.
Proof.
  unfold Re.findall_numbers.
  induction fuel as [fuel IH] using lt_wf_ind. intros s Hs.
  destruct s as [|c s]; [destruct fuel; reflexivity|].
  destruct fuel as [|fuel]; [simpl in Hs; lia|].
  simpl length. cbn [Re.findall_numbers_from].
  destruct (Re.match_number (c :: s)) as [[token rest]|] eqn:E.
  - apply match_number_shorter in E. simpl in E, Hs. f_equal.
    rewrite (IH fuel), (IH (length s)) by lia. reflexivity.
  - simpl in Hs. apply IH; lia.
Qed.

End Scan.

Section Cleaning.

Implicit Types (s t token : str) (c : ascii).







End Cleaning.




(** ** AnswerGrader *)

Section GradingFacts.

Variables (answer_data : AnswerData) (ground_truth_data : GroundTruth).

Let answer_text := default [] (ad_answer answer_data).
Let reference := gt_answer ground_truth_data.
Let correctness_criteria :=
  with_operator (py "correctness") (gt_rubric ground_truth_data).
Let contradiction_criteria :=
  with_operator (py "contradiction") (gt_rubric ground_truth_data).
Let g := grading answer_data ground_truth_data.

Let met := criterion_met answer_text reference.

Lemma rr_met_rubric_result type criterion :
  rr_met (rubric_result type criterion answer_text reference)
  = met criterion.
Proof.
  unfold rubric_result, met, criterion_met.
  destruct (check_criterion _ _ _). reflexivity.
Qed.

Lemma rr_type_rubric_result type criterion :
  rr_type (rubric_result type criterion answer_text reference) = type.
Proof.
  unfold rubric_result. destruct (check_criterion _ _ _). reflexivity.
Qed.

Lemma check_correctness_from results met_count (l : list Criterion) :
  foldl (fun '(rubric_results, met_count) criterion =>
           let r := rubric_result (py "correctness") criterion
                                  answer_text reference in
           (rubric_results ++ [r],
            if rr_met r then S met_count else met_count))
        (results, met_count) l
  = (results
     ++ map (fun c => rubric_result (py "correctness") c answer_text reference) l,
     (met_count + length (filter (fun c => met c = true) l))%nat).
Proof.
  revert results met_count.
  induction l as [|c l IH]; intros results met_count; simpl.
  - rewrite app_nil_r, Nat.add_0_r. reflexivity.
  - rewrite IH, rr_met_rubric_result, <- app_assoc, filter_cons. simpl.
    f_equal. destruct (met c) eqn:E.
    + rewrite decide_True by reflexivity. simpl. lia.
    + rewrite decide_False by discriminate. reflexivity.
Qed.

(** The first loop appends one result per criterion and counts the
    criteria met. *)
Lemma check_correctness_spec (l : list Criterion) :
  check_correctness answer_text reference l
  = (map (fun c => rubric_result (py "correctness") c answer_text reference) l,
     length (filter (fun c => met c = true) l)).
Proof. apply check_correctness_from. Qed.

Lemma check_contradictions_from status results flag (l : list Criterion) :
  foldl (fun '(rubric_results, has_contradictions) criterion =>
           let r := rubric_result (py "contradiction") criterion
                                  answer_text reference in
           (rubric_results ++ [r],
            if negb (rr_met r) && bool_decide (status = Answered)
            then true else has_contradictions))
        (results, flag) l
  = (results
     ++ map (fun c => rubric_result (py "contradiction") c answer_text reference) l,
     flag
     || bool_decide (status = Answered) && existsb (fun c => negb (met c)) l).
Proof.
  revert results flag.
  induction l as [|c l IH]; intros results flag; simpl.
  - rewrite app_nil_r, andb_false_r, orb_false_r. reflexivity.
  - rewrite IH, rr_met_rubric_result, <- app_assoc. simpl. f_equal.
    destruct (met c), (bool_decide (status = Answered)), flag; reflexivity.
Qed.

(** The second loop appends one result per criterion and raises the
    flag when a criterion is not met and the status is Answered. *)
Lemma check_contradictions_spec status results (l : list Criterion) :
  check_contradictions answer_text reference status results l
  = (results
     ++ map (fun c => rubric_result (py "contradiction") c answer_text reference) l,
     bool_decide (status = Answered) && existsb (fun c => negb (met c)) l).
Proof. apply check_contradictions_from. Qed.

(** The local variables of [grade_answer], one by one. *)

Lemma g_status_eq : g_status g = determine_status answer_text.
Proof.
  unfold g, grading. fold answer_text.
  destruct (check_correctness _ _ _), (check_contradictions _ _ _ _ _),
    (adjust_score _ _ _ _ _ _). reflexivity.
Qed.

Lemma g_n_criteria_eq : g_n_criteria g = length correctness_criteria.
Proof.
  unfold g, grading.
  destruct (check_correctness _ _ _), (check_contradictions _ _ _ _ _),
    (adjust_score _ _ _ _ _ _). reflexivity.
Qed.

Lemma g_met_count_eq :
  g_met_count g = length (filter (fun c => met c = true) correctness_criteria).
Proof.
  unfold g, grading. fold answer_text reference correctness_criteria.
  rewrite check_correctness_spec.
  destruct (check_contradictions _ _ _ _ _), (adjust_score _ _ _ _ _ _).
  reflexivity.
Qed.

Lemma g_score_before_penalty_eq :
  g_score_before_penalty g
  = calculate_correctness_score (g_met_count g) (g_n_criteria g)
                                (g_status g).
Proof.
  unfold g, grading.
  destruct (check_correctness _ _ _), (check_contradictions _ _ _ _ _),
    (adjust_score _ _ _ _ _ _). reflexivity.
Qed.

Lemma g_has_contradictions_eq :
  g_has_contradictions g
  = bool_decide (g_status g = Answered)
    && existsb (fun c => negb (met c)) contradiction_criteria.
Proof.
  rewrite g_status_eq.
  unfold g, grading.
  fold answer_text reference correctness_criteria contradiction_criteria.
  rewrite check_correctness_spec, check_contradictions_spec.
  destruct (adjust_score _ _ _ _ _ _). reflexivity.
Qed.

Lemma g_rubric_results_eq :
  g_rubric_results g
  = map (fun c => rubric_result (py "correctness") c answer_text reference)
        correctness_criteria
    ++ map (fun c => rubric_result (py "contradiction") c answer_text reference)
           contradiction_criteria.
Proof.
  unfold g, grading.
  fold answer_text reference correctness_criteria contradiction_criteria.
  rewrite check_correctness_spec, check_contradictions_spec.
  destruct (adjust_score _ _ _ _ _ _). reflexivity.
Qed.

Lemma g_correctness_score_eq :
  g_correctness_score g
  = penalize (g_has_contradictions g) (g_score_before_penalty g).
Proof.
  unfold g, grading.
  destruct (check_correctness _ _ _), (check_contradictions _ _ _ _ _),
    (adjust_score _ _ _ _ _ _). reflexivity.
Qed.

Lemma g_final_score_eq :
  g_final_score g
  = match g_status g with
    | Skipped => 0%Q
    | Attempted => (g_correctness_score g * 0.5)%Q
    | Answered => g_correctness_score g
    end.
Proof.
  unfold g, grading.
  destruct (check_correctness _ _ _), (check_contradictions _ _ _ _ _).
  unfold adjust_score. destruct (determine_status _); reflexivity.
Qed.

Lemma g_met_count_le : (g_met_count g <= g_n_criteria g)%nat.
Proof.
  rewrite g_met_count_eq, g_n_criteria_eq. apply length_filter.
Qed.

End GradingFacts.

(** C2 as stated fails: the marker in lower case is found by the
    specification's case-insensitive search, while [grade_answer] looks
    for the exact text and grades the answer as Attempted. *)
Lemma status_marker_is_case_sensitive :
  ~ (forall q answer_data ground_truth_data,
       status (grade_answer q answer_data ground_truth_data)
       = spec_status (default [] (ad_answer answer_data))).
Proof.
  intros H.
  specialize (H 1 (answer_of (py "final answer: $125 billion")) (truth_with [])).
  vm_compute in H. discriminate H.
Qed.

(** C2, amended: [grade_answer] assigns the status Skipped when the
    answer text is empty or whitespace-only, Answered when the text
    contains the marker "FINAL ANSWER:" exactly as written (upper case),
    and Attempted for any other text. *)
Theorem grade_answer_status q answer_data ground_truth_data :
  let answer_text := default [] (ad_answer answer_data) in
  let result := grade_answer q answer_data ground_truth_data in
  (Str.whitespace_only answer_text = true -> status result = Skipped)
  /\ (Str.whitespace_only answer_text = false ->
      Str.occurs_in (py "FINAL ANSWER:") answer_text ->
      status result = Answered)
  /\ (Str.whitespace_only answer_text = false ->
      ~ Str.occurs_in (py "FINAL ANSWER:") answer_text ->
      status result = Attempted).
Proof.
  intros answer_text result. unfold result, grade_answer. simpl.
  rewrite g_status_eq. fold answer_text.
  unfold determine_status. rewrite blank_test.
  split; [|split].
  - intros ->. reflexivity.
  - intros -> H. change (Str.occurs_in FINAL_ANSWER answer_text) in H.
    apply contains_spec in H. rewrite H. reflexivity.
  - intros -> H. destruct (Str.contains _ _) eqn:E; [|reflexivity].
    apply contains_spec in E. contradiction.
Qed.

Lemma grade_answer_status_witness :
  status (grade_answer 1 no_answer (truth_with rubric_3_of_4)) = Skipped
  /\ status (grade_answer 1 complete_answer (truth_with rubric_3_of_4))
     = Answered
  /\ status (grade_answer 1 partial_answer (truth_with rubric_3_of_4))
     = Attempted.
Proof.
  split; [|split].
  - apply (grade_answer_status 1 no_answer (truth_with rubric_3_of_4)).
    reflexivity.
  - apply (grade_answer_status 1 complete_answer (truth_with rubric_3_of_4)).
    + reflexivity.
    + exists [], (py " Revenue grew 44.7% to $125 billion, operating margin 12%").
      reflexivity.
  - apply (grade_answer_status 1 partial_answer (truth_with rubric_3_of_4)).
    + reflexivity.
    + intros H. apply contains_spec in H. vm_compute in H. discriminate H.
Defined.

(** C7: for every rubric and every answer, the correctness score and
    the final score of [grade_answer] lie within [0, 100], before and
    after rounding. *)
Theorem scores_within_scale q answer_data ground_truth_data :
  let g := grading answer_data ground_truth_data in
  let result := grade_answer q answer_data ground_truth_data in
  (0 <= g_correctness_score g <= 100
   /\ 0 <= g_final_score g <= 100
   /\ 0 <= correctness_score result <= 100
   /\ 0 <= final_score result <= 100)%Q.
Proof.
  intros g result.
  assert (Hc : (0 <= g_correctness_score g <= 100)%Q).
  { unfold g. rewrite g_correctness_score_eq, g_score_before_penalty_eq.
    apply penalize_bounds, calculate_correctness_score_bounds, g_met_count_le. }
  assert (Hf : (0 <= g_final_score g <= 100)%Q).
  { unfold g. rewrite g_final_score_eq. fold g.
    destruct (g_status g); [lra|exact Hc|lra]. }
  repeat split; try apply Hc; try apply Hf;
    unfold result, grade_answer; simpl; apply round1_bounds; assumption.
Qed.



(** C3: [has_contradictions] is true if and only if the status is
    Answered and at least one contradiction criterion is reported not
    met.  The penalty is applied if and only if [has_contradictions] is
    true and the correctness score is below 30: it then subtracts 20
    points and stops at 0, and otherwise the score is unchanged.  In
    particular an Answered question with correctness score 20 and
    contradictions has final score 0. *)
Theorem contradiction_penalty q answer_data ground_truth_data :
  let g := grading answer_data ground_truth_data in
  let result := grade_answer q answer_data ground_truth_data in
  let before := g_score_before_penalty g in
  (has_contradictions result = true <->
   status result = Answered
   /\ exists r, In r (rubric_results result)
                /\ rr_type r = py "contradiction" /\ rr_met r = false)
  /\ (has_contradictions result = true -> (before < 30)%Q ->
      ((20 <= before)%Q -> g_correctness_score g = (before - 20)%Q)
      /\ ((before < 20)%Q -> g_correctness_score g = 0%Q))
  /\ (~ (has_contradictions result = true /\ (before < 30)%Q) ->
      g_correctness_score g = before)
  /\ (status result = Answered -> (before == 20)%Q ->
      has_contradictions result = true ->
      (final_score result == 0)%Q).
Proof.
  intros g result before.
  change (has_contradictions result) with (g_has_contradictions g).
  change (status result) with (g_status g).
  change (rubric_results result) with (g_rubric_results g).
  change (final_score result) with (Num.round1 (g_final_score g)).
  assert (Hc := g_correctness_score_eq answer_data ground_truth_data).
  fold g before in Hc.
  assert (Hpen : g_has_contradictions g = true -> (before < 30)%Q ->
                 g_correctness_score g = Num.max0 (before - 20)).
  { intros Hh Hb. rewrite Hc, Hh. unfold penalize.
    apply below_30 in Hb. rewrite Hb. reflexivity. }
  split; [|split; [|split]].
  - unfold g. rewrite g_has_contradictions_eq, g_rubric_results_eq. fold g.
    rewrite andb_true_iff, bool_decide_eq_true, existsb_exists.
    split; intros [Hs Hex]; (split; [exact Hs|]).
    + destruct Hex as (c & Hin & Hmet). apply negb_true_iff in Hmet.
      eexists. rewrite in_app_iff, !in_map_iff. split; [right; eauto|].
      rewrite rr_type_rubric_result, rr_met_rubric_result. auto.
    + destruct Hex as (r & Hin & Htype & Hmet).
      rewrite in_app_iff, !in_map_iff in Hin.
      destruct Hin as [(c & <- & _)|(c & <- & Hin)].
      * rewrite rr_type_rubric_result in Htype. discriminate Htype.
      * rewrite rr_met_rubric_result in Hmet.
        exists c. rewrite Hmet. auto.
  - intros Hh Hb. rewrite (Hpen Hh Hb).
    destruct (max0_spec (before - 20)) as [Hp Hn].
    split; intros H; [apply Hp|apply Hn]; lra.
  - intros Hno. rewrite Hc. unfold penalize.
    destruct (g_has_contradictions g) eqn:Hh; [|reflexivity].
    destruct (negb (Qle_bool 30 before)) eqn:Hb; [|reflexivity].
    apply below_30 in Hb. tauto.
  - intros Hs Hb Hh.
    assert (Hf := g_final_score_eq answer_data ground_truth_data).
    fold g in Hf. rewrite Hf, Hs, Hpen by (try assumption; lra).
    destruct (max0_spec (before - 20)) as [Hp _].
    rewrite Hp by lra.
    assert (E : (before - 20 == 0)%Q) by lra.
    rewrite E. reflexivity.
Qed.

Lemma contradiction_penalty_witness :
  (final_score (grade_answer 1 weak_answer (truth_with rubric_1_of_5)) == 0)%Q.
Proof.
  apply (contradiction_penalty 1 weak_answer (truth_with rubric_1_of_5));
    vm_compute; reflexivity.
Defined.

(** ** GroundTruthLoader *)

Section LoadRows.

Lemma numbered_rows_cons row rows :
  numbered_rows (row :: rows)
  = if Str.truthy (Question row) then row :: numbered_rows rows
    else numbered_rows rows.
Proof. reflexivity. Qed.

(** The loop from the state [(n, m)]: the [i]-th numbered row is
    stored under [n + i], and the other keys keep what [m] has. *)
Lemma load_rows_spec rows : forall n m ground_truth,
  load_rows n m rows = Some ground_truth ->
  (forall (i : nat) row,
     numbered_rows rows !! i = Some row ->
     exists g, ground_truth !! (n + Z.of_nat i) = Some g /\ loaded_from row g)
  /\ (forall k,
        ~ (n <= k < n + Z.of_nat (length (numbered_rows rows))) ->
        ground_truth !! k = m !! k).
Proof.
  induction rows as [|row rows IH]; intros n m ground_truth Hload.
  - injection Hload as <-. split; [intros i row [=]|reflexivity].
  - simpl in Hload. rewrite numbered_rows_cons.
    destruct (Str.truthy (Question row)); [|apply (IH n m), Hload].
    destruct (Rubric row) as [rubric|] eqn:Er; [|discriminate].
    destruct (Expert_time row) as [expert_time|] eqn:Et; [|discriminate].
    simpl in Hload. apply IH in Hload as [Hin Hout]. split.
    + intros [|i] r Hr; simpl in Hr.
      * injection Hr as <-. rewrite Z.add_0_r, Hout by lia.
        rewrite lookup_insert_eq. eexists. split; [reflexivity|].
        repeat split; assumption.
      * destruct (Hin i r Hr) as (g & Hg & Hl). exists g.
        split; [|exact Hl]. rewrite <- Hg. f_equal. lia.
    + intros k Hk. simpl length in Hk.
      rewrite Hout by lia. apply lookup_insert_ne. lia.
Qed.

Lemma load_rows_total rows : forall n m,
  Forall well_formed_row (numbered_rows rows) ->
  is_Some (load_rows n m rows).
Proof.
  induction rows as [|row rows IH]; intros n m Hwf; simpl; [eauto|].
  rewrite numbered_rows_cons in Hwf.
  destruct (Str.truthy (Question row)); [|apply IH, Hwf].
  apply Forall_cons in Hwf as [[[rubric ->] [expert_time ->]] Hwf].
  simpl. apply IH, Hwf.
Qed.

End LoadRows.

(** The keys of the loaded mapping. *)
Lemma load_ground_truth_keys rows ground_truth :
  load_ground_truth rows = Some ground_truth ->
  forall k,
    is_Some (ground_truth !! k)
    <-> 1 <= k <= Z.of_nat (length (numbered_rows rows)).
Proof.
  intros Hload k. apply load_rows_spec in Hload as [Hin Hout]. split.
  - intros Hk.
    destruct (decide (1 <= k < 1 + Z.of_nat (length (numbered_rows rows))))
      as [?|Hno]; [lia|].
    rewrite (Hout k Hno), lookup_empty in Hk. destruct Hk as [? [=]].
  - intros Hk.
    destruct (lookup_lt_is_Some_2 (numbered_rows rows) (Z.to_nat (k - 1)))
      as [row Hrow]; [lia|].
    destruct (Hin _ _ Hrow) as (g & Hg & _).
    exists g. rewrite <- Hg. f_equal. lia.
Qed.

(** C8: [load_ground_truth] numbers the rows with a non-empty Question
    field from 1 in the order of the table; the rows with an empty
    Question field are skipped and do not advance the numbering, so
    that the keys of the mapping are exactly 1..N for N such rows.  The
    load returns a mapping whenever the rubric and the expert time of
    every such row can be read. *)
Theorem load_ground_truth_numbering rows :
  let N := Z.of_nat (length (numbered_rows rows)) in
  (Forall well_formed_row (numbered_rows rows) ->
   is_Some (load_ground_truth rows))
  /\ (forall ground_truth,
        load_ground_truth rows = Some ground_truth ->
        (forall k, is_Some (ground_truth !! k) <-> 1 <= k <= N)
        /\ (forall (i : nat) row,
              numbered_rows rows !! i = Some row ->
              exists g, ground_truth !! (Z.of_nat i + 1) = Some g
                        /\ loaded_from row g)).
Proof.
  intros N. split; [apply load_rows_total|].
  intros ground_truth Hload. apply load_rows_spec in Hload as [Hin Hout].
  split.
  - intros k. split.
    + intros Hk. destruct (decide (1 <= k < 1 + N)) as [?|Hno]; [lia|].
      rewrite (Hout k Hno), lookup_empty in Hk. destruct Hk as [? [=]].
    + intros Hk.
      destruct (lookup_lt_is_Some_2 (numbered_rows rows) (Z.to_nat (k - 1)))
        as [row Hrow]; [lia|].
      destruct (Hin _ _ Hrow) as (g & Hg & _).
      exists g. rewrite <- Hg. f_equal. lia.
  - intros i row Hrow. destruct (Hin i row Hrow) as (g & Hg & Hl).
    exists g. split; [|exact Hl]. rewrite <- Hg. f_equal. lia.
Qed.

Lemma load_ground_truth_numbering_witness :
  match load_ground_truth sample_rows with
  | Some ground_truth =>
      exists g, ground_truth !! 2 = Some g
                /\ loaded_from (row_of "What was the dividend?" rubric_1_of_5) g
  | None => False
  end.
Proof.
  destruct (load_ground_truth sample_rows) as [ground_truth|] eqn:E.
  - exact (proj2 (proj2 (load_ground_truth_numbering sample_rows) _ E)
                   1%nat _ eq_refl).
  - vm_compute in E. discriminate E.
Defined.

(** ** AnswerStore *)

Section LoadItems.

Implicit Types (answers : gmap Z AnswerData) (l : list AnswerItem).





End LoadItems.



(** ** The grading run *)

Section Run.

Variables (ground_truth : gmap Z GroundTruth) (answers : gmap Z AnswerData).

Lemma grade_questions_from (l : list Z) : forall graded_results,
  foldl (fun graded_results q_num =>
           match ground_truth !! q_num with
           | Some ground_truth_data =>
               let answer_data := default no_answer (answers !! q_num) in
               graded_results
                 ++ [grade_answer q_num answer_data ground_truth_data]
           | None => graded_results
           end)
        graded_results l
  = graded_results ++ omap (graded ground_truth answers) l.
Proof.
  induction l as [|q l IH]; intros graded_results; simpl.
  - rewrite app_nil_r. reflexivity.
  - rewrite IH. unfold graded at 2.
    destruct (ground_truth !! q); [|reflexivity].
    rewrite <- app_assoc. reflexivity.
Qed.

(** The loop appends, for 1..50 in order, the result of each number
    that the ground truth has. *)
Lemma grade_questions_spec :
  grade_questions ground_truth answers
  = omap (graded ground_truth answers) (seqZ 1 50).
Proof. apply grade_questions_from. Qed.

Lemma graded_question_num q result :
  graded ground_truth answers q = Some result -> question_num result = q.
Proof.
  unfold graded. destruct (ground_truth !! q); [|discriminate].
  intros [= <-]. reflexivity.
Qed.

Lemma graded_present (l : list Z) :
  Forall (fun q => is_Some (ground_truth !! q)) l ->
  map question_num (omap (graded ground_truth answers) l) = l.
Proof.
  induction 1 as [|q l [g Hg] _ IH]; [reflexivity|].
  csimpl. unfold graded at 1. rewrite Hg. csimpl. f_equal. exact IH.
Qed.

Lemma graded_absent (l : list Z) :
  Forall (fun q => ground_truth !! q = None) l ->
  omap (graded ground_truth answers) l = [].
Proof.
  induction 1 as [|q l Hq _ IH]; [reflexivity|].
  csimpl. unfold graded at 1. rewrite Hq. exact IH.
Qed.

(** With the keys 1..N, the results are those of 1..min(N, 50). *)
Lemma grade_questions_numbers (N : Z) :
  0 <= N ->
  (forall k, is_Some (ground_truth !! k) <-> 1 <= k <= N) ->
  map question_num (grade_questions ground_truth answers)
  = seqZ 1 (Z.min N 50).
Proof.
  intros HN Hkeys. rewrite grade_questions_spec.
  replace 50 with (Z.min N 50 + (50 - Z.min N 50)) at 1 by lia.
  rewrite seqZ_app, omap_app, map_app by lia.
  rewrite (graded_absent (seqZ (1 + Z.min N 50) (50 - Z.min N 50))).
  - simpl. rewrite app_nil_r.
    apply graded_present, Forall_forall. intros k Hk.
    apply elem_of_seqZ in Hk. apply Hkeys. lia.
  - apply Forall_forall. intros k Hk. apply elem_of_seqZ in Hk.
    apply eq_None_not_Some. rewrite Hkeys. lia.
Qed.

(** A question without a submitted answer is graded as skipped. *)
Lemma grade_no_answer q ground_truth_data :
  let result := grade_answer q no_answer ground_truth_data in
  status result = Skipped /\ (final_score result == 0)%Q.
Proof.
  assert (Hs : g_status (grading no_answer ground_truth_data) = Skipped)
    by (rewrite g_status_eq; reflexivity).
  split; [exact Hs|].
  unfold grade_answer. simpl. rewrite g_final_score_eq, Hs. reflexivity.
Qed.

End Run.

(** C1 as stated fails: of a ground truth of 51 questions the report
    has 50, the grading loop running over the numbers 1 to 50. *)
Lemma report_stops_at_50 :
  ~ (forall rows answers_list r,
       main rows answers_list = Some r ->
       total_questions (summary r) = length (numbered_rows rows)).
Proof.
  intros H.
  destruct (main rows_51 []) as [r|] eqn:E.
  - specialize (H rows_51 [] r E).
    assert (Hr : Some (total_questions (summary r))
                 = total_questions <$> (summary <$> main rows_51 []))
      by (rewrite E; reflexivity).
    rewrite H in Hr. vm_compute in Hr. discriminate Hr.
  - vm_compute in E. discriminate E.
Qed.

(** C1, amended: for a ground truth loaded by [load_ground_truth], with
    the question numbers 1..N, and every answer store, the questions of
    the report are, in order and once each, those of the numbers
    1..min(N, 50), and [total_questions] is min(N, 50).  Each is graded
    against the submitted answer of its number, and against the empty
    answer text with no sources, hence as Skipped with final score 0,
    when the store has no answer for the number. *)
Theorem report_covers_first_50 rows answers_list ground_truth answers :
  load_ground_truth rows = Some ground_truth ->
  load_answers answers_list = Some answers ->
  let N := length (numbered_rows rows) in
  exists r,
    main rows answers_list = Some r
    /\ map question_num (questions r) = seqZ 1 (Z.min (Z.of_nat N) 50)
    /\ total_questions (summary r) = Nat.min N 50
    /\ forall result,
         In result (questions r) ->
         let q := question_num result in
         exists ground_truth_data,
           ground_truth !! q = Some ground_truth_data
           /\ result = grade_answer q (default no_answer (answers !! q))
                                    ground_truth_data
           /\ (answers !! q = None ->
               result = grade_answer q no_answer ground_truth_data
               /\ status result = Skipped
               /\ (final_score result == 0)%Q).
Proof.
  intros Hgt Hans N. exists (report ground_truth answers).
  assert (Hnum : map question_num (grade_questions ground_truth answers)
                 = seqZ 1 (Z.min (Z.of_nat N) 50)).
  { apply grade_questions_numbers; [lia|].
    apply (load_ground_truth_keys rows), Hgt. }
  split; [unfold main; rewrite Hgt, Hans; reflexivity|].
  split; [exact Hnum|]. split.
  - change (length (grade_questions ground_truth answers) = Nat.min N 50).
    rewrite <- (length_map question_num), Hnum, length_seqZ. lia.
  - change (questions (report ground_truth answers))
      with (grade_questions ground_truth answers).
    intros result Hin. rewrite grade_questions_spec in Hin.
    apply list_elem_of_In, list_elem_of_omap in Hin as (q & _ & Hq).
    pose proof (graded_question_num _ _ _ _ Hq) as Hq_num.
    unfold graded in Hq.
    destruct (ground_truth !! q) as [ground_truth_data|] eqn:Eq;
      [|discriminate].
    injection Hq as Hresult. cbv zeta. rewrite Hq_num.
    exists ground_truth_data. split; [exact Eq|].
    split; [symmetry; exact Hresult|].
    intros Hnone. rewrite Hnone in Hresult. rewrite <- Hresult.
    split; [reflexivity|]. apply grade_no_answer.
Qed.

Lemma report_covers_first_50_witness :
  match load_ground_truth sample_rows, load_answers sample_items with
  | Some ground_truth, Some answers =>
      exists r, main sample_rows sample_items = Some r
                /\ map question_num (questions r) = [1; 2]
                /\ total_questions (summary r) = 2%nat
  | _, _ => False
  end.
Proof.
  destruct (load_ground_truth sample_rows) as [ground_truth|] eqn:Eg;
    [|vm_compute in Eg; discriminate Eg].
  destruct (load_answers sample_items) as [answers|] eqn:Ea;
    [|vm_compute in Ea; discriminate Ea].
  destruct (report_covers_first_50 _ _ _ _ Eg Ea) as (r & Hr & Hq & Ht & _).
  exists r. split; [exact Hr|]. split; [exact Hq|exact Ht].
Defined.

(** * Further properties *)

(** ** DifficultyClassifier and sources *)

(** X1: the difficulty tier depends on the expert time only, and a
    longer expert time never gives an easier tier. *)
Theorem categorize_difficulty_monotone type1 type2 t1 t2 :
  t1 <= t2 ->
  (difficulty_rank (categorize_difficulty type1 t1)
   <= difficulty_rank (categorize_difficulty type2 t2))%nat.
Proof.
  intros H. unfold categorize_difficulty.
  repeat case_match; simpl; lia.
Qed.

Section SourcesTiers.

Implicit Types (sources : list Source).

Lemma grade_sources_poor sources :
  grade_sources sources = Poor <-> sources = [].
Proof.
  unfold grade_sources. destruct sources as [|s1 rest]; [tauto|].
  rewrite bool_decide_eq_false_2 by discriminate.
  rewrite (bool_decide_eq_true_2 (1 <= _)%nat) by (simpl; lia).
  destruct (_ && _); split; discriminate.
Qed.

Lemma grade_sources_good sources :
  grade_sources sources = Good <->
  (2 <= length sources)%nat /\ exists s, In s sources /\ official s = true.
Proof.
  unfold grade_sources. rewrite <- existsb_exists.
  destruct sources as [|s1 rest].
  - simpl. split; [discriminate|]. intros [H _]. lia.
  - rewrite bool_decide_eq_false_2 by discriminate.
    rewrite (bool_decide_eq_true_2 (1 <= _)%nat) by (simpl; lia).
    destruct (bool_decide (2 <= length (s1 :: rest))%nat) eqn:E.
    + apply bool_decide_eq_true in E. rewrite andb_true_l.
      destruct (existsb official (s1 :: rest)); split;
        try discriminate; try tauto. intros [_ [=]].
    + apply bool_decide_eq_false in E. rewrite andb_false_l.
      split; [discriminate|]. intros [H _]. contradiction.
Qed.

End SourcesTiers.

(** X2: the sources tier is Poor exactly when there is no source, and
    Good exactly when there are at least two sources of which one has an
    official address (sec.gov, investor, ir.); a single source is
    Acceptable, whatever its address. *)
Theorem grade_sources_tiers (sources : list Source) :
  (grade_sources sources = Poor <-> sources = [])
  /\ (grade_sources sources = Good <->
      (2 <= length sources)%nat
      /\ exists s, In s sources /\ official s = true)
  /\ (length sources = 1%nat -> grade_sources sources = Acceptable).
Proof.
  split; [apply grade_sources_poor|]. split; [apply grade_sources_good|].
  intros Hone.
  destruct (grade_sources sources) eqn:E; [|reflexivity|].
  - apply grade_sources_poor in E. subst sources. discriminate Hone.
  - apply grade_sources_good in E as [Htwo _]. lia.
Qed.

(** X3: further sources never lower the sources tier. *)
Theorem grade_sources_monotone (sources more : list Source) :
  (quality_rank (grade_sources sources)
   <= quality_rank (grade_sources (sources ++ more)))%nat.
Proof.
  destruct (grade_sources sources) eqn:E; simpl; [lia| |].
  - destruct (grade_sources (sources ++ more)) eqn:E'; simpl; try lia.
    apply grade_sources_poor, app_eq_nil in E' as [Hnil _].
    apply grade_sources_poor in Hnil. congruence.
  - apply grade_sources_good in E as (Hlen & s & Hin & Hs).
    rewrite (proj2 (grade_sources_good (sources ++ more))); [reflexivity|].
    split.
    + rewrite length_app. lia.
    + exists s. split; [apply in_or_app; auto|exact Hs].
Qed.

(** X4: the three status counts of the summary add up to
    [total_questions], the number of results. *)
Theorem summary_counts_partition (graded_results : list GradingResult) :
  let s := calculate_summary graded_results in
  (answered s + attempted s + skipped s = total_questions s)%nat
  /\ total_questions s = length graded_results.
Proof.
  split; [|reflexivity]. simpl. unfold count_status.
  induction graded_results as [|r l IH]; [reflexivity|].
  rewrite !filter_cons. simpl length.
  destruct (status r); repeat case_decide; try congruence; simpl; lia.
Qed.

Section Groups.

Context {K : Type} `{EqDecision K} (key : GradingResult -> K).

(** The grouping loop of [calculate_summary]. *)
Lemma mean_by_groups (graded_results : list GradingResult) :
  mean_by key graded_results
  = map (fun '(k, scores) =>
           (k, match scores with
               | [] => 0%Q
               | _ :: _ =>
                   Num.round1 (sum scores / Num.of_nat (length scores))
               end))
        (foldl (fun by_key r => append_to (key r) (final_score r) by_key)
               [] graded_results).
Proof. reflexivity. Qed.

Lemma key_of_group k scores (groups : list (K * list Q)) :
  (k, scores) ∈ groups -> k ∈ map fst groups.
Proof.
  induction groups as [|[k' s'] groups IH]; intros Hin.
  - apply elem_of_nil in Hin. contradiction.
  - apply elem_of_cons in Hin as [[= -> ->]|Hin]; simpl.
    + apply list_elem_of_here.
    + apply list_elem_of_further, IH, Hin.
Qed.

Lemma group_of_key k (groups : list (K * list Q)) :
  k ∈ map fst groups -> exists scores, (k, scores) ∈ groups.
Proof.
  induction groups as [|[k' s'] groups IH]; simpl; intros Hin.
  - apply elem_of_nil in Hin. contradiction.
  - apply elem_of_cons in Hin as [->|Hin].
    + exists s'. apply list_elem_of_here.
    + destruct (IH Hin) as [scores Hs]. exists scores.
      apply list_elem_of_further, Hs.
Qed.

Lemma append_to_keys k v (groups : list (K * list Q)) :
  map fst (append_to k v groups)
  = if decide (k ∈ map fst groups) then map fst groups
    else map fst groups ++ [k].
Proof.
  induction groups as [|[k' scores] groups IH].
  - reflexivity.
  - cbn [append_to]. destruct (decide (k' = k)) as [->|Hne].
    + cbn [map fst]. rewrite decide_True by apply list_elem_of_here.
      reflexivity.
    + cbn [map fst]. rewrite IH.
      destruct (decide (k ∈ map fst groups)) as [Hin|Hnin];
        destruct (decide (k ∈ k' :: map fst groups)) as [Hin'|Hnin'];
        try reflexivity.
      * exfalso. apply Hnin', list_elem_of_further, Hin.
      * exfalso. apply elem_of_cons in Hin' as [->|Hin']; auto.
Qed.

Lemma append_to_lookup k v (groups : list (K * list Q)) k' scores :
  NoDup (map fst groups) ->
  (k', scores) ∈ append_to k v groups <->
  (k' <> k /\ (k', scores) ∈ groups)
  \/ (k' = k /\ exists old, scores = old ++ [v]
                  /\ ((k, old) ∈ groups
                      \/ (old = [] /\ k ∉ map fst groups))).
Proof.
  induction groups as [|[k0 s0] groups IH]; intros Hnd; simpl.
  - rewrite list_elem_of_singleton. split.
    + intros [= -> ->]. right. split; [reflexivity|].
      exists []. split; [reflexivity|]. right. split; [reflexivity|].
      apply not_elem_of_nil.
    + intros [[_ H]|(-> & old & -> & [H|[-> _]])];
        [apply elem_of_nil in H; contradiction
        |apply elem_of_nil in H; contradiction|reflexivity].
  - apply NoDup_cons in Hnd as [Hk0 Hnd]. specialize (IH Hnd).
    destruct (decide (k0 = k)) as [->|Hne].
    + rewrite !elem_of_cons. split.
      * intros [[= -> ->]|Hin].
        -- right. split; [reflexivity|]. exists s0. split; [reflexivity|].
           left. apply list_elem_of_here.
        -- left. split; [|right; exact Hin]. intros ->. apply Hk0.
           apply (key_of_group _ _ _ Hin).
      * intros [[Hne [[= ]|Hin]]|(-> & old & -> & [Hin|[-> Hnin]])].
        -- congruence.
        -- right. exact Hin.
        -- apply elem_of_cons in Hin as [[= ->]|Hin]; [left; reflexivity|].
           exfalso. apply Hk0. apply (key_of_group _ _ _ Hin).
        -- exfalso. apply Hnin. apply list_elem_of_here.
    + rewrite !elem_of_cons, IH. split.
      * intros [[= -> ->]|[[Hne' Hin]|(-> & old & -> & [Hin|[-> Hnin]])]].
        -- left. split; [exact Hne|left; reflexivity].
        -- left. split; [exact Hne'|right; exact Hin].
        -- right. split; [reflexivity|]. exists old. split; [reflexivity|].
           left. right. exact Hin.
        -- right. split; [reflexivity|]. exists []. split; [reflexivity|].
           right. split; [reflexivity|]. simpl. intros Hin.
           apply elem_of_cons in Hin as [->|Hin]; auto.
      * intros [[Hne' [[= -> ->]|Hin]]|(-> & old & -> & [Hin|[-> Hnin]])].
        -- left. reflexivity.
        -- right. left. split; [exact Hne'|exact Hin].
        -- apply elem_of_cons in Hin as [[= ]|Hin]; [congruence|].
           right. right. split; [reflexivity|]. exists old.
           split; [reflexivity|]. left. exact Hin.
        -- right. right. split; [reflexivity|]. exists [].
           split; [reflexivity|]. right. split; [reflexivity|].
           intros Hin. apply Hnin. simpl. apply list_elem_of_further, Hin.
Qed.

Lemma append_to_NoDup k v (groups : list (K * list Q)) :
  NoDup (map fst groups) -> NoDup (map fst (append_to k v groups)).
Proof.
  intros Hnd. rewrite append_to_keys. case_decide; [exact Hnd|].
  apply NoDup_app. split; [exact Hnd|]. split.
  - intros x Hx Hx'. apply list_elem_of_singleton in Hx'. congruence.
  - apply NoDup_singleton.
Qed.

(** After the loop, each key that occurs has one group: the final
    scores of its results, in order. *)
Lemma groups_spec (graded_results : list GradingResult) :
  let groups :=
    foldl (fun by_key r => append_to (key r) (final_score r) by_key)
          [] graded_results in
  NoDup (map fst groups)
  /\ forall k scores,
       (k, scores) ∈ groups <->
       scores <> []
       /\ scores = map final_score
                       (filter (fun r => key r = k) graded_results).
Proof.
  induction graded_results as [|r l IH] using rev_ind; simpl.
  - split; [apply NoDup_nil_2|]. intros k scores. split.
    + intros H. apply elem_of_nil in H. contradiction.
    + intros [H ->]. contradiction.
  - rewrite foldl_app. simpl. destruct IH as [Hnd IH].
    split; [apply append_to_NoDup, Hnd|]. intros k scores.
    rewrite (append_to_lookup _ _ _ _ _ Hnd), filter_app, map_app.
    rewrite filter_cons, filter_nil.
    destruct (decide (key r = k)) as [<-|Hne]; simpl.
    + split.
      * intros [[Hne _]|(_ & old & -> & [Hin|[-> Hnin]])]; [congruence| |].
        -- apply IH in Hin as [_ <-]. split; [|reflexivity].
           intros H. apply app_eq_nil in H as [_ [=]].
        -- split; [discriminate|].
           destruct (filter (fun r0 => key r0 = key r) l) as [|r0 rest] eqn:E;
             [reflexivity|].
           exfalso. apply Hnin.
           assert (Hin : (key r, map final_score (r0 :: rest)) ∈
                         foldl (fun by_key r => append_to (key r) (final_score r) by_key) [] l).
           { apply IH. rewrite E. split; [discriminate|reflexivity]. }
           apply (key_of_group _ _ _ Hin).
      * intros [_ ->]. right. split; [reflexivity|]. eexists.
        split; [reflexivity|].
        destruct (filter (fun r0 => key r0 = key r) l) as [|r0 rest] eqn:E.
        -- right. split; [reflexivity|]. intros Hin.
           apply group_of_key in Hin as [s' Hin].
           apply IH in Hin as [Hs ->].
           rewrite E in Hs. contradiction.
        -- left. apply IH. rewrite E. split; [discriminate|reflexivity].
    + rewrite app_nil_r. split.
      * intros [[_ Hin]|[Heq _]]; [apply IH, Hin|congruence].
      * intros H. left. split; [congruence|]. apply IH, H.
Qed.

End Groups.

Section Means.

Context {K : Type} `{EqDecision K} (key : GradingResult -> K).

(** The mapping of [mean_by]: one entry for each key that occurs, the
    rounded mean of the final scores of the results that have it. *)
Lemma mean_by_spec (graded_results : list GradingResult) :
  NoDup (map fst (mean_by key graded_results))
  /\ forall k mean,
       (k, mean) ∈ mean_by key graded_results <->
       (exists r, r ∈ graded_results /\ key r = k)
       /\ let scores :=
            map final_score (filter (fun r => key r = k) graded_results) in
          mean = Num.round1 (sum scores / Num.of_nat (length scores)).
Proof.
  rewrite mean_by_groups.
  destruct (groups_spec key graded_results) as [Hnd Hgroups].
  set (groups := foldl _ _ _) in *. split.
  - rewrite map_map.
    erewrite map_ext; [exact Hnd|]. intros [k scores]. reflexivity.
  - intros k mean.
    assert (Hne : forall scores,
              scores = map final_score
                           (filter (fun r => key r = k) graded_results) ->
              scores <> [] <-> exists r, r ∈ graded_results /\ key r = k).
    { intros scores ->. split.
      - intros Hs.
        destruct (filter (fun r => key r = k) graded_results) as [|r rest] eqn:E;
          [contradiction|].
        assert (Hr : r ∈ filter (fun r => key r = k) graded_results)
          by (rewrite E; apply list_elem_of_here).
        apply list_elem_of_filter in Hr as [Hk Hr]. eauto.
      - intros (r & Hr & Hk) Hs.
        assert (Hin : r ∈ filter (fun r => key r = k) graded_results)
          by (apply list_elem_of_filter; auto).
        destruct (filter (fun r => key r = k) graded_results);
          [apply elem_of_nil in Hin; contradiction|discriminate]. }
    rewrite list_elem_of_In, in_map_iff. split.
    + intros ([k' scores] & Heq & Hin). apply list_elem_of_In in Hin.
      apply Hgroups in Hin as [Hs Hscores].
      destruct scores as [|x rest]; [contradiction|].
      injection Heq as -> <-. split.
      * apply (Hne _ Hscores). discriminate.
      * cbv zeta. rewrite <- Hscores. reflexivity.
    + intros [Hex ->]. eexists (k, _). split.
      2:{ apply list_elem_of_In, Hgroups.
          split; [|reflexivity]. apply (Hne _ eq_refl), Hex. }
      apply (Hne _ eq_refl) in Hex.
      destruct (map final_score _); [contradiction|reflexivity].
Qed.

End Means.

Section SumFacts.

Local Open Scope Q_scope.

Lemma sum_from_bounds (scores : list Q) : forall acc,
  Forall (fun x => 0 <= x <= 100) scores ->
  acc <= foldl Qplus acc scores
  /\ foldl Qplus acc scores <= acc + 100 * Num.of_nat (length scores).
Proof.
  induction scores as [|x l IH]; intros acc Hall; simpl.
  - change (Num.of_nat 0) with 0. clear Hall. lra.
  - apply Forall_cons in Hall as [[Hx0 Hx1] Hall].
    destruct (IH (acc + x) Hall) as [Hlo Hhi].
    assert (E : Num.of_nat (S (length l)) == Num.of_nat (length l) + 1).
    { unfold Num.of_nat. rewrite Nat2Z.inj_succ, <- Z.add_1_r.
      rewrite inject_Z_plus. reflexivity. }
    rewrite E. lra.
Qed.

(** The mean of scores on the scale is on the scale. *)
Lemma mean_bounds (scores : list Q) :
  scores <> [] ->
  Forall (fun x => 0 <= x <= 100) scores ->
  0 <= sum scores / Num.of_nat (length scores) <= 100.
Proof.
  intros Hne Hall. unfold sum.
  destruct (sum_from_bounds scores 0 Hall) as [Hlo Hhi].
  assert (Hn : 0 < Num.of_nat (length scores)).
  { unfold Num.of_nat. rewrite <- (Zlt_Qlt 0).
    destruct scores; [contradiction|simpl; lia]. }
  split.
  - apply Qle_shift_div_l; [exact Hn|]. lra.
  - apply Qle_shift_div_r; [exact Hn|]. lra.
Qed.

End SumFacts.


(** X6: when the final scores lie within [0, 100], so do the average
    score and every group mean of the summary. *)
Theorem summary_averages_within_scale (graded_results : list GradingResult) :
  Forall (fun r => (0 <= final_score r <= 100)%Q) graded_results ->
  let s := calculate_summary graded_results in
  (0 <= average_score s <= 100)%Q
  /\ Forall (fun entry => (0 <= entry.2 <= 100)%Q) (by_difficulty s)
  /\ Forall (fun entry => (0 <= entry.2 <= 100)%Q) (by_question_type s).
Proof.
  intros Hall s.
  assert (Hscores : forall l : list GradingResult,
            (forall r, r ∈ l -> r ∈ graded_results) ->
            Forall (fun x => (0 <= x <= 100)%Q) (map final_score l)).
  { intros l Hl. rewrite Forall_forall in Hall. apply Forall_forall.
    intros x Hx. apply list_elem_of_In, in_map_iff in Hx as (r & <- & Hr).
    apply Hall, Hl, list_elem_of_In, Hr. }
  assert (Hmean : forall {K} `{EqDecision K} (key : GradingResult -> K),
            Forall (fun entry => (0 <= entry.2 <= 100)%Q)
                   (mean_by key graded_results)).
  { intros K ? key. apply Forall_forall. intros [k mean] Hin.
    apply (mean_by_spec key) in Hin as [(r & Hr & Hk) ->]. simpl.
    apply round1_bounds, mean_bounds.
    - assert (Hin : r ∈ filter (fun r => key r = k) graded_results)
        by (apply list_elem_of_filter; auto).
      destruct (filter _ graded_results);
        [apply elem_of_nil in Hin; contradiction|discriminate].
    - apply Hscores. intros r' Hr'.
      apply list_elem_of_filter in Hr' as [_ Hr']. exact Hr'. }
  split; [|split; apply Hmean].
  unfold s, calculate_summary. cbn [average_score].
  apply round1_bounds. case_bool_decide as Hn; [|lra].
  rewrite <- (length_map final_score).
  apply mean_bounds; [|apply Hscores; auto].
  destruct graded_results; [simpl in Hn; lia|discriminate].
Qed.

(** ** CriterionMatcher, continued *)

Section CaseFolding.

Implicit Types (s t : str) (c : ascii).









End CaseFolding.

Section CriterionCase.

Implicit Types (s t : str) (c : ascii).



















End CriterionCase.


Lemma check_criterion_blank criterion_text answer ground_truth :
  Str.whitespace_only answer = true ->
  check_criterion criterion_text answer ground_truth
  = (false, py "No answer provided").
Proof.
  intros H. unfold check_criterion. rewrite blank_test, H. reflexivity.
Qed.

Lemma head_differs (c d : ascii) (s t rest : str) :
  c <> d -> (c :: s) ++ rest <> d :: t.
Proof. intros Hne [= H _]. contradiction. Qed.

(** X8: a verdict of not met carries one of two fixed messages, and the
    message "No answer provided" is given exactly for the blank
    answers. *)
Theorem check_criterion_evidence criterion_text answer ground_truth :
  let result := check_criterion criterion_text answer ground_truth in
  (result.1 = false <->
   result.2 = py "No answer provided"
   \/ result.2 = py "Criterion not clearly met in answer")
  /\ (result.2 = py "No answer provided" <->
      Str.whitespace_only answer = true).
Proof.
  unfold check_criterion. rewrite blank_test.
  destruct (Str.whitespace_only answer).
  { cbn [fst snd]. split; split; auto. }
  assert (Hfound : forall rest,
            py "Found required numbers: " ++ rest <> py "No answer provided"
            /\ py "Found required numbers: " ++ rest
               <> py "Criterion not clearly met in answer"
            /\ py "Found " ++ rest <> py "No answer provided"
            /\ py "Found " ++ rest <> py "Criterion not clearly met in answer"
            /\ py "Strong word overlap (" ++ rest <> py "No answer provided"
            /\ py "Strong word overlap (" ++ rest
               <> py "Criterion not clearly met in answer").
  { intros rest. repeat split; apply head_differs; discriminate. }
  cbv zeta.
  repeat match goal with
         | |- context [if ?b then _ else _] => destruct b
         end;
    cbn [fst snd]; (split; split);
    try discriminate; try (intros [H|H]); try (intros H);
    try (exfalso; revert H; first
           [ apply (Hfound _) | apply (proj1 (proj2 (Hfound _)))
           | apply (proj1 (proj2 (proj2 (Hfound _))))
           | apply (proj1 (proj2 (proj2 (proj2 (Hfound _)))))
           | apply (proj1 (proj2 (proj2 (proj2 (proj2 (Hfound _))))))
           | apply (proj2 (proj2 (proj2 (proj2 (proj2 (Hfound _)))))) ]);
    auto.
Qed.

Section Tokens.

Implicit Types (s t token : str) (c : ascii).

Lemma contains_nil s : Str.contains [] s = true.
Proof. destruct s; reflexivity. Qed.

Lemma span_forall f s : forallb f (Re.span f s).1 = true.
Proof.
  induction s as [|c s IH]; simpl; [reflexivity|].
  destruct (f c) eqn:E; [|reflexivity].
  destruct (Re.span f s). simpl in *. rewrite E, IH. reflexivity.
Qed.

Lemma optional_app c s : (Re.optional c s).1 ++ (Re.optional c s).2 = s.
Proof.
  destruct s as [|d s]; [reflexivity|]. simpl.
  case_bool_decide; [subst|]; reflexivity.
Qed.

Lemma optional_numeric c s :
  numeric_char c = true -> forallb numeric_char (Re.optional c s).1 = true.
Proof.
  intros Hc. destruct s as [|d s]; [reflexivity|]. simpl.
  case_bool_decide; [|reflexivity]. simpl. rewrite Hc. reflexivity.
Qed.

Lemma forallb_weaken (f g : ascii -> bool) s :
  (forall c, f c = true -> g c = true) ->
  forallb f s = true -> forallb g s = true.
Proof.
  intros Hfg. rewrite !forallb_forall. auto.
Qed.

(** A match is a prefix of the text: the token followed by the rest.
    The token starts with a digit or a comma and is made of digits,
    commas, dots and percent signs. *)
Lemma match_number_spec s token rest :
  Re.match_number s = Some (token, rest) ->
  s = token ++ rest
  /\ (exists c token', token = c :: token' /\ Re.digit_or_comma c = true)
  /\ forallb numeric_char token = true.
Proof.
  unfold Re.match_number.
  pose proof (span_app Re.digit_or_comma s) as H1.
  pose proof (span_forall Re.digit_or_comma s) as F1.
  destruct (Re.span Re.digit_or_comma s) as [head r1]. cbn [fst snd] in *.
  destruct head as [|h head]; [discriminate|].
  pose proof (optional_app "."%char r1) as H2.
  pose proof (optional_numeric "."%char r1 eq_refl) as F2.
  destruct (Re.optional "."%char r1) as [dot r2]. cbn [fst snd] in *.
  pose proof (span_app Chars.isdecimal r2) as H3.
  pose proof (span_forall Chars.isdecimal r2) as F3.
  destruct (Re.span Chars.isdecimal r2) as [frac r3]. cbn [fst snd] in *.
  pose proof (optional_app "%"%char r3) as H4.
  pose proof (optional_numeric "%"%char r3 eq_refl) as F4.
  destruct (Re.optional "%"%char r3) as [pct r4]. cbn [fst snd] in *.
  intros [= <- <-]. split; [|split].
  - rewrite <- H1, <- H2, <- H3, <- H4. simpl.
    repeat rewrite <- app_assoc. reflexivity.
  - exists h, (head ++ dot ++ frac ++ pct). split; [reflexivity|].
    simpl in F1. apply andb_true_iff in F1. apply F1.
  - change (forallb numeric_char ((h :: head) ++ dot ++ frac ++ pct) = true).
    rewrite !forallb_app, F2, F4.
    rewrite (forallb_weaken Re.digit_or_comma numeric_char (h :: head)),
            (forallb_weaken Chars.isdecimal numeric_char frac);
      [reflexivity| |exact F3| |exact F1].
    + intros c Hc. unfold numeric_char, Re.digit_or_comma. rewrite Hc.
      reflexivity.
    + intros c Hc. unfold numeric_char. rewrite Hc. reflexivity.
Qed.

Lemma occurs_in_cons c token s :
  Str.occurs_in token s -> Str.occurs_in token (c :: s).
Proof. intros (pre & post & ->). exists (c :: pre), post. reflexivity. Qed.

Lemma occurs_in_after pre token s :
  Str.occurs_in token s -> Str.occurs_in token (pre ++ s).
Proof.
  intros (p & post & ->). exists (pre ++ p), post.
  rewrite <- app_assoc. reflexivity.
Qed.

Lemma findall_numbers_from_spec fuel : forall s token,
  token ∈ Re.findall_numbers_from fuel s ->
  Str.occurs_in token s
  /\ (exists c token', token = c :: token' /\ Re.digit_or_comma c = true)
  /\ forallb numeric_char token = true.
Proof.
  induction fuel as [|fuel IH]; intros s token Hin.
  - apply elem_of_nil in Hin. contradiction.
  - destruct s as [|c s]; [apply elem_of_nil in Hin; contradiction|].
    cbn [Re.findall_numbers_from] in Hin.
    destruct (Re.match_number (c :: s)) as [[tok rest]|] eqn:E.
    + apply match_number_spec in E as (Hs & Hhead & Hchars).
      apply elem_of_cons in Hin as [->|Hin].
      * split; [|auto]. exists [], rest. exact Hs.
      * destruct (IH _ _ Hin) as (Hocc & Hrest). split; [|exact Hrest].
        rewrite Hs. apply occurs_in_after, Hocc.
    + destruct (IH _ _ Hin) as (Hocc & Hrest). split; [|exact Hrest].
      apply occurs_in_cons, Hocc.
Qed.

End Tokens.

(** X9: every numeric token that [check_criterion] extracts from a
    criterion occurs in the criterion, starts with a digit or a comma
    and is made of digits, commas, dots and percent signs; a text
    without digits and commas has no token. *)
Theorem findall_numbers_tokens (criterion_text : str) :
  (forall token,
     token ∈ Re.findall_numbers criterion_text ->
     Str.occurs_in token criterion_text
     /\ (exists c rest, token = c :: rest /\ Re.digit_or_comma c = true)
     /\ forallb numeric_char token = true)
  /\ (forallb (fun c => negb (Re.digit_or_comma c)) criterion_text = true ->
      Re.findall_numbers criterion_text = []).
Proof.
  split; [intros token; apply findall_numbers_from_spec|].
  intros Hnone.
  destruct (Re.findall_numbers criterion_text) as [|token rest] eqn:E;
    [reflexivity|].
  destruct (findall_numbers_from_spec (length criterion_text)
              criterion_text token)
    as ((pre & post & Hs) & (c & token' & -> & Hc) & _).
  { fold (Re.findall_numbers criterion_text). rewrite E.
    apply list_elem_of_here. }
  rewrite Hs, !forallb_app in Hnone. simpl in Hnone. rewrite Hc in Hnone.
  rewrite andb_false_r in Hnone. discriminate Hnone.
Qed.

(** X10: a criterion whose numeric tokens are bare commas is met by every
    answer that is not blank. *)
Theorem bare_commas_always_met criterion_text answer ground_truth :
  Str.whitespace_only answer = false ->
  Re.findall_numbers criterion_text <> [] ->
  Forall (fun token => forallb (fun c => bool_decide (c = ","%char)) token = true)
         (Re.findall_numbers criterion_text) ->
  (check_criterion criterion_text answer ground_truth).1 = true.
Proof.
  intros Hblank Hsome Hcommas. unfold check_criterion.
  rewrite blank_test, Hblank.
  rewrite bool_decide_eq_true_2 by exact Hsome.
  replace (forallb _ (Re.findall_numbers criterion_text)) with true;
    [reflexivity|].
  symmetry. apply forallb_forall. intros token Hin.
  rewrite Forall_forall in Hcommas.
  apply list_elem_of_In, Hcommas in Hin.
  replace (Str.remove_char ","%char token) with (@nil ascii);
    [apply contains_nil|].
  symmetry. unfold Str.remove_char.
  induction token as [|c token IH]; [reflexivity|].
  simpl in Hin. apply andb_true_iff in Hin as [Hc Hin].
  apply bool_decide_eq_true in Hc. subst c.
  rewrite filter_cons_False by (intros H; apply H; reflexivity).
  apply IH, Hin.
Qed.

(** ** AnswerGrader, continued *)

Section RoundingOrder.

Local Open Scope Q_scope.

(** Rounding to the nearest integer keeps the order. *)
Lemma round_half_even_monotone x y :
  x <= y -> (Num.round_half_even x <= Num.round_half_even y)%Z.
Proof.
  intros Hxy.
  pose proof (Qfloor_resp_le _ _ Hxy) as Hf.
  pose proof (Qfloor_le x) as Hx0. pose proof (Qlt_floor x) as Hx1.
  pose proof (Qfloor_le y) as Hy0. pose proof (Qlt_floor y) as Hy1.
  rewrite inject_Z_plus in Hx1, Hy1.
  change (inject_Z 1) with 1 in Hx1, Hy1.
  assert (Hlo : (Qfloor y <= Num.round_half_even y)%Z).
  { unfold Num.round_half_even. repeat case_match; lia. }
  assert (Hhi : (Num.round_half_even x <= Qfloor x + 1)%Z).
  { unfold Num.round_half_even. repeat case_match; lia. }
  destruct (Z.eq_dec (Qfloor x) (Qfloor y)) as [E|NE]; [|lia].
  unfold Num.round_half_even. rewrite <- E in *.
  destruct (x - inject_Z (Qfloor x) ?= 0.5) eqn:Cx;
    destruct (y - inject_Z (Qfloor x) ?= 0.5) eqn:Cy;
    try (destruct (Z.even (Qfloor x))); try lia; exfalso;
    first [apply (proj2 (Qeq_alt _ _)) in Cx
          |apply (proj2 (Qlt_alt _ _)) in Cx
          |apply (proj2 (Qgt_alt _ _)) in Cx];
    first [apply (proj2 (Qeq_alt _ _)) in Cy
          |apply (proj2 (Qlt_alt _ _)) in Cy
          |apply (proj2 (Qgt_alt _ _)) in Cy];
    lra.
Qed.

Lemma round1_monotone x y : x <= y -> Num.round1 x <= Num.round1 y.
Proof.
  intros Hxy. unfold Num.round1.
  assert (H : (Num.round_half_even (x * 10) <= Num.round_half_even (y * 10))%Z)
    by (apply round_half_even_monotone; lra).
  rewrite Zle_Qle in H. unfold Qdiv.
  apply Qmult_le_compat_r; [exact H|discriminate].
Qed.

End RoundingOrder.

Section GradingMore.

Variables (answer_data : AnswerData) (ground_truth_data : GroundTruth).

Let answer_text := default [] (ad_answer answer_data).
Let reference := gt_answer ground_truth_data.
Let g := grading answer_data ground_truth_data.

Lemma determine_status_blank :
  Str.whitespace_only answer_text = true <-> g_status g = Skipped.
Proof.
  unfold g. rewrite g_status_eq. fold answer_text.
  unfold determine_status. rewrite blank_test.
  destruct (Str.whitespace_only answer_text).
  - split; reflexivity.
  - destruct (Str.contains _ _); split; discriminate.
Qed.

Lemma rubric_result_fields type criterion :
  rubric_result type criterion answer_text reference
  = {| rr_type := type;
       rr_criteria := criteria criterion;
       rr_met := (check_criterion (criteria criterion) answer_text reference).1;
       rr_evidence :=
         (check_criterion (criteria criterion) answer_text reference).2 |}.
Proof.
  unfold rubric_result. destruct (check_criterion _ _ _). reflexivity.
Qed.

Lemma no_criterion_met_when_blank (l : list Criterion) :
  Str.whitespace_only answer_text = true ->
  filter (fun c => criterion_met answer_text reference c = true) l = [].
Proof.
  intros Hblank. induction l as [|c l IH]; [reflexivity|].
  rewrite filter_cons_False; [exact IH|].
  unfold criterion_met. rewrite check_criterion_blank by exact Hblank.
  discriminate.
Qed.

Lemma final_le_correctness :
  (g_final_score g <= g_correctness_score g)%Q.
Proof.
  assert (Hc : (0 <= g_correctness_score g <= 100)%Q).
  { unfold g. rewrite g_correctness_score_eq, g_score_before_penalty_eq.
    apply penalize_bounds, calculate_correctness_score_bounds, g_met_count_le. }
  unfold g. rewrite g_final_score_eq. fold g.
  destruct (g_status g); lra.
Qed.

End GradingMore.

(** X11: a blank answer is graded Skipped: no criterion is met, each
    result carries the evidence "No answer provided", no contradiction
    is flagged and both scores are 0, whatever the rubric. *)
Theorem blank_answer_scores_nothing q answer_data ground_truth_data :
  Str.whitespace_only (default [] (ad_answer answer_data)) = true ->
  let result := grade_answer q answer_data ground_truth_data in
  status result = Skipped
  /\ has_contradictions result = false
  /\ (correctness_score result == 0)%Q
  /\ (final_score result == 0)%Q
  /\ Forall (fun r => rr_met r = false
                      /\ rr_evidence r = py "No answer provided")
            (rubric_results result).
Proof.
  intros Hblank result.
  pose proof (proj1 (determine_status_blank _ ground_truth_data) Hblank) as Hs.
  assert (Hh : g_has_contradictions (grading answer_data ground_truth_data)
               = false).
  { rewrite g_has_contradictions_eq, Hs. reflexivity. }
  assert (Hc : (g_correctness_score (grading answer_data ground_truth_data)
                == 0)%Q).
  { rewrite g_correctness_score_eq, Hh, g_score_before_penalty_eq.
    rewrite g_met_count_eq, no_criterion_met_when_blank, Hs by exact Hblank.
    unfold penalize, calculate_correctness_score. cbn [andb length].
    case_bool_decide; reflexivity. }
  split; [exact Hs|]. split; [exact Hh|]. split; [|split].
  - unfold result, grade_answer. cbn [correctness_score].
    rewrite Hc. reflexivity.
  - unfold result, grade_answer. cbn [final_score].
    rewrite g_final_score_eq, Hs. reflexivity.
  - unfold result, grade_answer. cbn [rubric_results].
    rewrite g_rubric_results_eq. apply Forall_app. split;
      apply Forall_forall; intros r Hr;
      apply list_elem_of_In, in_map_iff in Hr as (c & <- & _);
      rewrite rubric_result_fields, check_criterion_blank by exact Hblank;
      split; reflexivity.
Qed.

(** X12: only an Answered question is flagged or penalised: when the
    status is Attempted no contradiction is flagged, the correctness
    score is the plain ratio, and the final score is half of it. *)
Theorem attempted_never_penalised q answer_data ground_truth_data :
  let g := grading answer_data ground_truth_data in
  let result := grade_answer q answer_data ground_truth_data in
  status result = Attempted ->
  has_contradictions result = false
  /\ g_correctness_score g
     = calculate_correctness_score (g_met_count g) (g_n_criteria g) Attempted
  /\ g_final_score g = (g_correctness_score g * 0.5)%Q.
Proof.
  intros g result Hs. change (g_status g = Attempted) in Hs.
  assert (Hh : g_has_contradictions g = false).
  { unfold g. rewrite g_has_contradictions_eq. fold g. rewrite Hs.
    reflexivity. }
  split; [exact Hh|]. split.
  - unfold g. rewrite g_correctness_score_eq, g_score_before_penalty_eq.
    fold g. rewrite Hh, Hs. reflexivity.
  - unfold g. rewrite g_final_score_eq. fold g. rewrite Hs. reflexivity.
Qed.

(** X13: the final score never exceeds the correctness score, in the
    record too. *)
Theorem final_score_at_most_correctness q answer_data ground_truth_data :
  let result := grade_answer q answer_data ground_truth_data in
  (final_score result <= correctness_score result)%Q.
Proof.
  apply round1_monotone, final_le_correctness.
Qed.

(** X14: the rubric results list the correctness criteria and then the
    contradiction criteria, each in the order of the rubric, with the
    verdict and the evidence of [check_criterion]. *)
Theorem rubric_results_layout q answer_data ground_truth_data :
  let answer_text := default [] (ad_answer answer_data) in
  let verdict type (c : Criterion) :=
    {| rr_type := type;
       rr_criteria := criteria c;
       rr_met := (check_criterion (criteria c) answer_text
                                  (gt_answer ground_truth_data)).1;
       rr_evidence := (check_criterion (criteria c) answer_text
                                       (gt_answer ground_truth_data)).2 |} in
  rubric_results (grade_answer q answer_data ground_truth_data)
  = map (verdict (py "correctness"))
        (with_operator (py "correctness") (gt_rubric ground_truth_data))
    ++ map (verdict (py "contradiction"))
           (with_operator (py "contradiction") (gt_rubric ground_truth_data)).
Proof.
  intros answer_text verdict. unfold grade_answer. cbn [rubric_results].
  rewrite g_rubric_results_eq. f_equal; apply map_ext; intros c;
    apply rubric_result_fields.
Qed.

Section RubricInvariance.

Lemma with_operator_graded op (rubric : list Criterion) :
  op = py "correctness" \/ op = py "contradiction" ->
  with_operator op (graded_criteria rubric) = with_operator op rubric.
Proof.
  intros Hop. unfold with_operator, graded_criteria.
  induction rubric as [|c rubric IH]; [reflexivity|].
  rewrite (filter_cons (fun r => operator r = op) c rubric).
  destruct (decide (operator c = op)) as [E|NE].
  - rewrite filter_cons_True by (rewrite E; exact Hop).
    rewrite filter_cons_True by exact E. rewrite IH. reflexivity.
  - rewrite <- IH.
    destruct (decide (operator c = py "correctness"
                      \/ operator c = py "contradiction")) as [H|H].
    + rewrite (filter_cons_True _ c rubric H).
      rewrite filter_cons_False by exact NE. reflexivity.
    + rewrite (filter_cons_False _ c rubric H). reflexivity.
Qed.

(** [grading] reads the rubric through its two filters only. *)
Lemma grading_rubric answer_data ground_truth_data rubric :
  with_operator (py "correctness") rubric
  = with_operator (py "correctness") (gt_rubric ground_truth_data) ->
  with_operator (py "contradiction") rubric
  = with_operator (py "contradiction") (gt_rubric ground_truth_data) ->
  grading answer_data (with_rubric ground_truth_data rubric)
  = grading answer_data ground_truth_data.
Proof.
  intros H1 H2. unfold grading. cbn [with_rubric gt_rubric gt_answer].
  rewrite H1, H2. reflexivity.
Qed.

Lemma existsb_Permutation {A} (f : A -> bool) (l1 l2 : list A) :
  l1 ≡ₚ l2 -> existsb f l1 = existsb f l2.
Proof.
  induction 1 as [|x l1 l2 _ IH|x y l|l1 l2 l3 _ IH1 _ IH2]; simpl.
  - reflexivity.
  - rewrite IH. reflexivity.
  - destruct (f x), (f y); reflexivity.
  - congruence.
Qed.

End RubricInvariance.

(** X15: rubric entries whose operator is neither "correctness" nor
    "contradiction" are ignored: two rubrics with the same entries of
    these two operators give the same grading result. *)
Theorem other_operators_ignored q answer_data ground_truth_data rubric1 rubric2 :
  graded_criteria rubric1 = graded_criteria rubric2 ->
  grade_answer q answer_data (with_rubric ground_truth_data rubric1)
  = grade_answer q answer_data (with_rubric ground_truth_data rubric2).
Proof.
  intros H.
  assert (Hg : forall rubric,
            grading answer_data (with_rubric ground_truth_data rubric)
            = grading answer_data
                (with_rubric ground_truth_data (graded_criteria rubric))).
  { intros rubric. symmetry.
    apply (grading_rubric answer_data (with_rubric ground_truth_data rubric));
      apply with_operator_graded; auto. }
  unfold grade_answer. rewrite (Hg rubric1), (Hg rubric2), H. reflexivity.
Qed.

(** X16: the order of the criteria in the rubric does not matter for
    the scores: a permuted rubric gives the same status, scores and
    contradiction flag, and the same rubric results up to their order. *)
Theorem rubric_order_irrelevant q answer_data ground_truth_data rubric1 rubric2 :
  rubric1 ≡ₚ rubric2 ->
  let r1 := grade_answer q answer_data (with_rubric ground_truth_data rubric1) in
  let r2 := grade_answer q answer_data (with_rubric ground_truth_data rubric2) in
  status r1 = status r2
  /\ correctness_score r1 = correctness_score r2
  /\ has_contradictions r1 = has_contradictions r2
  /\ final_score r1 = final_score r2
  /\ rubric_results r1 ≡ₚ rubric_results r2.
Proof.
  intros Hperm r1 r2.
  set (g1 := grading answer_data (with_rubric ground_truth_data rubric1)).
  set (g2 := grading answer_data (with_rubric ground_truth_data rubric2)).
  assert (Hop : forall op, with_operator op rubric1 ≡ₚ with_operator op rubric2).
  { intros op. unfold with_operator. rewrite Hperm. reflexivity. }
  assert (Hs : g_status g1 = g_status g2).
  { unfold g1, g2. rewrite !g_status_eq. reflexivity. }
  assert (Hn : g_n_criteria g1 = g_n_criteria g2).
  { unfold g1, g2. rewrite !g_n_criteria_eq. cbn [with_rubric gt_rubric].
    rewrite (Hop (py "correctness")). reflexivity. }
  assert (Hm : g_met_count g1 = g_met_count g2).
  { unfold g1, g2. rewrite !g_met_count_eq. cbn [with_rubric gt_rubric gt_answer].
    rewrite (Hop (py "correctness")). reflexivity. }
  assert (Hh : g_has_contradictions g1 = g_has_contradictions g2).
  { unfold g1, g2. rewrite !g_has_contradictions_eq. fold g1 g2. rewrite Hs.
    cbn [with_rubric gt_rubric gt_answer]. f_equal.
    apply existsb_Permutation, Hop. }
  assert (Hc : g_correctness_score g1 = g_correctness_score g2).
  { unfold g1, g2.
    rewrite !g_correctness_score_eq, !g_score_before_penalty_eq.
    fold g1 g2. rewrite Hh, Hm, Hn, Hs. reflexivity. }
  assert (Hf : g_final_score g1 = g_final_score g2).
  { unfold g1, g2. rewrite !g_final_score_eq. fold g1 g2.
    rewrite Hs, Hc. reflexivity. }
  unfold r1, r2, grade_answer.
  cbn [status correctness_score has_contradictions final_score rubric_results].
  fold g1 g2. rewrite Hs, Hc, Hh, Hf. repeat split.
  unfold g1, g2. rewrite !g_rubric_results_eq.
  cbn [with_rubric gt_rubric gt_answer].
  rewrite (Hop (py "correctness")), (Hop (py "contradiction")). reflexivity.
Qed.

(** ** AnswerStore, continued *)

Section StoreMore.

Implicit Types (answers m : gmap Z AnswerData) (l : list AnswerItem).

Lemma load_items_well_formed l : forall m,
  is_Some (load_items m l) <-> Forall well_formed_item l.
Proof.
  induction l as [|item l IH]; intros m; simpl.
  - split; [constructor|eauto].
  - rewrite Forall_cons. unfold well_formed_item at 1.
    destruct (item_question item) as [question|]; simpl.
    + destruct (item_question_number item) as [number|]; simpl.
      * rewrite IH. split; [intros H; repeat split; eauto|tauto].
      * split; [intros [? [=]]|intros [[[? [=]] _] _]].
    + split; [intros [? [=]]|intros [[_ [? [=]]] _]].
Qed.

Lemma load_items_app l1 l2 : forall m,
  load_items m (l1 ++ l2) = load_items m l1 ≫= fun m' => load_items m' l2.
Proof.
  induction l1 as [|item l1 IH]; intros m; simpl; [reflexivity|].
  destruct (item_question item); [|reflexivity].
  destruct (item_question_number item); [|reflexivity].
  simpl. apply IH.
Qed.

(** Loading on top of a store is loading from the empty store and
    laying the result over it. *)
Lemma load_items_union l : forall m,
  load_items m l = (fun loaded => loaded ∪ m) <$> load_items ∅ l.
Proof.
  induction l as [|item l IH]; intros m; simpl.
  - rewrite (left_id_L ∅ (∪)). reflexivity.
  - destruct (item_question item) as [question|]; [|reflexivity].
    destruct (item_question_number item) as [number|]; [|reflexivity].
    simpl. rewrite (IH (<[number:=_]> m)), (IH (<[number:=_]> ∅)).
    destruct (load_items ∅ l) as [loaded|]; [|reflexivity]. simpl.
    f_equal. rewrite <- (assoc_L (∪)). f_equal.
    rewrite insert_union_singleton_l, (insert_union_singleton_l ∅).
    rewrite (right_id_L ∅ (∪)). reflexivity.
Qed.

Lemma load_items_keys l : forall m answers n,
  load_items m l = Some answers ->
  is_Some (answers !! n) <->
  is_Some (m !! n)
  \/ exists item, item ∈ l /\ item_question_number item = Some n.
Proof.
  induction l as [|item l IH]; intros m answers n Hload; simpl in Hload.
  - injection Hload as <-. split; [auto|].
    intros [H|(item & Hin & _)]; [exact H|].
    apply elem_of_nil in Hin. contradiction.
  - destruct (item_question item) as [question|]; [|discriminate].
    destruct (item_question_number item) as [number|] eqn:En; [|discriminate].
    simpl in Hload. rewrite (IH _ _ n Hload). split.
    + intros [H|(item' & Hin & Hn)].
      * destruct (decide (number = n)) as [->|Hne].
        -- right. exists item. split; [apply list_elem_of_here|exact En].
        -- left. rewrite lookup_insert_ne in H by exact Hne. exact H.
      * right. exists item'. split; [apply list_elem_of_further, Hin|exact Hn].
    + intros [H|(item' & Hin & Hn)].
      * left. destruct (decide (number = n)) as [->|Hne].
        -- rewrite lookup_insert_eq. eauto.
        -- rewrite lookup_insert_ne by exact Hne. exact H.
      * apply elem_of_cons in Hin as [->|Hin].
        -- left. rewrite En in Hn. injection Hn as ->.
           rewrite lookup_insert_eq. eauto.
        -- right. eauto.
Qed.

Lemma load_items_size l : forall m answers,
  load_items m l = Some answers -> (size answers <= size m + length l)%nat.
Proof.
  induction l as [|item l IH]; intros m answers Hload; simpl in Hload.
  - injection Hload as <-. lia.
  - destruct (item_question item) as [question|]; [|discriminate].
    destruct (item_question_number item) as [number|]; [|discriminate].
    simpl in Hload. apply IH in Hload. simpl length.
    pose proof (map_size_insert number (stored question item) m) as Hsize.
    destruct (m !! number); simpl in Hsize; lia.
Qed.

End StoreMore.

(** X17: [load_answers] returns a store exactly when every element has
    its [question_number] and its [question]; a missing [answer] or
    [sources] never makes it fail. *)
Theorem load_answers_succeeds_iff (answers_list : list AnswerItem) :
  is_Some (load_answers answers_list)
  <-> Forall (fun item => is_Some (item_question_number item)
                          /\ is_Some (item_question item))
             answers_list.
Proof. apply load_items_well_formed. Qed.

(** X18: the keys of the store are the question numbers of the list,
    and the store has at most as many entries as the list has
    elements. *)
Theorem load_answers_keys (answers_list : list AnswerItem) answers :
  load_answers answers_list = Some answers ->
  (forall n,
     is_Some (answers !! n) <->
     exists item, item ∈ answers_list /\ item_question_number item = Some n)
  /\ (size answers <= length answers_list)%nat.
Proof.
  intros Hload. split.
  - intros n. rewrite (load_items_keys _ _ _ n Hload), lookup_empty. split.
    + intros [[? [=]]|H]; exact H.
    + auto.
  - apply load_items_size in Hload. rewrite map_size_empty in Hload. exact Hload.
Qed.

(** X19: loading a list extended by an accumulation script gives the
    store of the new elements laid over the store of the old ones: a
    number that the new elements supply has their entry, and any other
    number keeps its entry. *)
Theorem load_answers_extend (old new : list AnswerItem) :
  load_answers (extend old new)
  = match load_answers old, load_answers new with
    | Some old_answers, Some new_answers => Some (new_answers ∪ old_answers)
    | _, _ => None
    end.
Proof.
  unfold load_answers, extend. rewrite load_items_app.
  destruct (load_items ∅ old) as [old_answers|]; simpl.
  - rewrite load_items_union. destruct (load_items ∅ new); reflexivity.
  - destruct (load_items ∅ new); reflexivity.
Qed.

(** ** GroundTruthLoader, continued *)

Section TableMore.

Lemma loaded_from_well_formed row g : loaded_from row g -> well_formed_row row.
Proof. intros (_ & _ & _ & Ht & Hr). split; eauto. Qed.

Lemma loaded_from_unique row g1 g2 :
  loaded_from row g1 -> loaded_from row g2 -> g1 = g2.
Proof.
  destruct g1, g2. unfold loaded_from. simpl.
  intros (-> & -> & -> & Ht1 & Hr1) (-> & -> & -> & Ht2 & Hr2).
  congruence.
Qed.

Lemma numbered_rows_app rows more :
  numbered_rows (rows ++ more) = numbered_rows rows ++ numbered_rows more.
Proof. apply List.filter_app. Qed.

Lemma load_rows_well_formed rows n m :
  is_Some (load_rows n m rows) <-> Forall well_formed_row (numbered_rows rows).
Proof.
  split; [|apply load_rows_total].
  intros [ground_truth Hload]. apply load_rows_spec in Hload as [Hin _].
  apply Forall_lookup. intros i row Hrow.
  destruct (Hin i row Hrow) as (g & _ & Hg).
  exact (loaded_from_well_formed _ _ Hg).
Qed.

End TableMore.

(** X20: [load_ground_truth] returns a mapping exactly when the rubric
    and the expert time of every row with a non-empty Question field
    can be read; what the rows with an empty Question field hold is
    never read. *)
Theorem load_ground_truth_succeeds_iff (rows : list Row) :
  is_Some (load_ground_truth rows)
  <-> Forall (fun row => is_Some (Rubric row) /\ is_Some (Expert_time row))
             (numbered_rows rows).
Proof. apply load_rows_well_formed. Qed.

(** X21: rows appended to the table leave the loaded questions as they
    are: the mapping of the longer table extends that of the table. *)
Theorem load_ground_truth_append rows more extended :
  load_ground_truth (rows ++ more) = Some extended ->
  exists ground_truth,
    load_ground_truth rows = Some ground_truth
    /\ ground_truth ⊆ extended.
Proof.
  intros Hext.
  assert (Hwf : Forall well_formed_row (numbered_rows rows)).
  { assert (H : is_Some (load_ground_truth (rows ++ more))) by eauto.
    apply load_rows_well_formed in H.
    rewrite numbered_rows_app in H. apply Forall_app in H. apply H. }
  destruct (load_rows_total rows 1 ∅ Hwf) as [ground_truth Hload].
  exists ground_truth. split; [exact Hload|].
  apply load_rows_spec in Hload as [Hin Hout].
  apply load_rows_spec in Hext as [Hin' _].
  apply map_subseteq_spec. intros k g Hk.
  destruct (decide (1 <= k < 1 + Z.of_nat (length (numbered_rows rows))))
    as [Hrange|Hrange].
  - destruct (lookup_lt_is_Some_2 (numbered_rows rows) (Z.to_nat (k - 1)))
      as [row Hrow]; [lia|].
    destruct (Hin _ _ Hrow) as (g1 & Hg1 & Hl1).
    destruct (Hin' (Z.to_nat (k - 1)) row) as (g2 & Hg2 & Hl2).
    { rewrite numbered_rows_app. apply lookup_app_l_Some, Hrow. }
    replace (1 + Z.of_nat (Z.to_nat (k - 1))) with k in Hg1, Hg2 by lia.
    rewrite Hg2. rewrite Hk in Hg1. injection Hg1 as ->.
    f_equal. exact (loaded_from_unique _ _ _ Hl2 Hl1).
  - rewrite (Hout k Hrange), lookup_empty in Hk. discriminate Hk.
Qed.

(** ** The grading run, continued *)

Section RunMore.

Variables (ground_truth : gmap Z GroundTruth).

Implicit Types (answers : gmap Z AnswerData).

Lemma graded_status answers q result :
  graded ground_truth answers q = Some result ->
  status_at ground_truth answers q = Some (status result).
Proof.
  unfold graded, status_at. destruct (ground_truth !! q); [|discriminate].
  intros [= <-]. unfold grade_answer. cbn [status].
  rewrite g_status_eq. reflexivity.
Qed.

Lemma graded_none answers q :
  graded ground_truth answers q = None ->
  status_at ground_truth answers q = None.
Proof.
  unfold graded, status_at. destruct (ground_truth !! q); [discriminate|].
  reflexivity.
Qed.

Lemma count_status_graded answers s (l : list Z) :
  count_status s (omap (graded ground_truth answers) l)
  = length (filter (fun q => status_at ground_truth answers q = Some s) l).
Proof.
  unfold count_status. induction l as [|q l IH]; [reflexivity|].
  csimpl. rewrite filter_cons.
  destruct (graded ground_truth answers q) as [result|] eqn:E.
  - rewrite (graded_status _ _ _ E), filter_cons.
    destruct (decide (status result = s)) as [->|Hne].
    + rewrite decide_True by reflexivity. simpl. rewrite IH. reflexivity.
    + rewrite decide_False by congruence. exact IH.
  - rewrite (graded_none _ _ E). rewrite decide_False by discriminate.
    exact IH.
Qed.

Lemma graded_numbers answers (l : list Z) :
  map question_num (omap (graded ground_truth answers) l)
  = filter (fun q => is_Some (ground_truth !! q)) l.
Proof.
  induction l as [|q l IH]; [reflexivity|].
  csimpl. rewrite filter_cons. unfold graded at 1.
  destruct (ground_truth !! q) as [g|].
  - rewrite decide_True by eauto. csimpl. f_equal. exact IH.
  - rewrite decide_False by (intros [? [=]]). exact IH.
Qed.

Lemma graded_ext answers1 answers2 (l : list Z) :
  Forall (fun q => is_Some (ground_truth !! q) ->
                   answers1 !! q = answers2 !! q) l ->
  omap (graded ground_truth answers1) l = omap (graded ground_truth answers2) l.
Proof.
  induction 1 as [|q l Hq _ IH]; [reflexivity|].
  csimpl. rewrite IH. unfold graded.
  destruct (ground_truth !! q) as [g|]; [|reflexivity].
  rewrite Hq by eauto. reflexivity.
Qed.

End RunMore.

(** X22: for any ground-truth mapping, the report lists the numbers
    between 1 and 50 that the mapping has, in increasing order, so it
    never has more than 50 questions. *)
Theorem report_question_numbers ground_truth answers :
  let r := report ground_truth answers in
  map question_num (questions r)
  = filter (fun q => is_Some (ground_truth !! q)) (seqZ 1 50)
  /\ (total_questions (summary r) <= 50)%nat.
Proof.
  intros r.
  assert (H : map question_num (grade_questions ground_truth answers)
              = filter (fun q => is_Some (ground_truth !! q)) (seqZ 1 50)).
  { rewrite grade_questions_spec. apply graded_numbers. }
  split; [exact H|].
  change (length (grade_questions ground_truth answers) <= 50)%nat.
  rewrite <- (length_map question_num), H.
  etransitivity; [apply length_filter|]. rewrite length_seqZ. lia.
Qed.

(** X23: answers filed under numbers that are not graded (outside 1..50,
    or absent from the ground truth) do not change the report. *)
Theorem ungraded_answers_ignored ground_truth answers1 answers2 :
  (forall q, 1 <= q <= 50 -> is_Some (ground_truth !! q) ->
             answers1 !! q = answers2 !! q) ->
  report ground_truth answers1 = report ground_truth answers2.
Proof.
  intros H. unfold report. rewrite !grade_questions_spec.
  rewrite (graded_ext ground_truth answers1 answers2); [reflexivity|].
  apply Forall_forall. intros q Hq. apply elem_of_seqZ in Hq.
  apply H. lia.
Qed.

(** X24: the counts of the summary follow the submitted texts: each
    status is counted over the graded numbers, where the status of a
    number is that of the text stored for it, the empty text when the
    store has none. *)
Theorem summary_counts_by_text ground_truth answers :
  let s := summary (report ground_truth answers) in
  let count status :=
    length (filter (fun q => status_at ground_truth answers q = Some status)
                   (seqZ 1 50)) in
  answered s = count Answered
  /\ attempted s = count Attempted
  /\ skipped s = count Skipped.
Proof.
  intros s count. unfold s, report, calculate_summary.
  cbn [summary answered attempted skipped].
  rewrite grade_questions_spec, !count_status_graded.
  split; [reflexivity|]. split; reflexivity.
Qed.

Section AllBlank.

Local Open Scope Q_scope.

Lemma grade_answer_blank q answer_data ground_truth_data :
  Str.whitespace_only (default [] (ad_answer answer_data)) = true ->
  status (grade_answer q answer_data ground_truth_data) = Skipped
  /\ final_score (grade_answer q answer_data ground_truth_data) == 0.
Proof.
  intros Hblank.
  pose proof (proj1 (determine_status_blank _ ground_truth_data) Hblank) as Hs.
  split; [exact Hs|]. unfold grade_answer. cbn [final_score].
  rewrite g_final_score_eq, Hs. reflexivity.
Qed.

Lemma sum_from_zero (scores : list Q) : forall acc,
  Forall (fun x => x == 0) scores -> foldl Qplus acc scores == acc.
Proof.
  induction scores as [|x l IH]; intros acc Hall; simpl; [reflexivity|].
  apply Forall_cons in Hall as [Hx Hall]. rewrite (IH _ Hall), Hx. lra.
Qed.

Lemma count_status_none s (l : list GradingResult) :
  Forall (fun r => status r <> s) l -> count_status s l = 0%nat.
Proof.
  unfold count_status. induction 1 as [|r l Hr _ IH]; [reflexivity|].
  rewrite filter_cons_False by exact Hr. exact IH.
Qed.

Lemma count_status_all s (l : list GradingResult) :
  Forall (fun r => status r = s) l -> count_status s l = length l.
Proof.
  unfold count_status. induction 1 as [|r l Hr _ IH]; [reflexivity|].
  rewrite filter_cons_True by exact Hr. simpl. rewrite IH. reflexivity.
Qed.

(** The summary of results that are all skipped with score 0. *)
Lemma summary_all_skipped (l : list GradingResult) :
  Forall (fun r => status r = Skipped /\ final_score r == 0) l ->
  let s := calculate_summary l in
  answered s = 0%nat /\ attempted s = 0%nat /\ skipped s = total_questions s
  /\ average_score s == 0.
Proof.
  intros Hall s. unfold s, calculate_summary.
  cbn [answered attempted skipped total_questions average_score].
  rewrite (count_status_none Answered), (count_status_none Attempted),
          (count_status_all Skipped);
    try (eapply Forall_impl; [exact Hall|]; intros r [-> _];
         (reflexivity || discriminate)).
  do 3 (split; [reflexivity|]).
  assert (Hsum : sum (map final_score l) == 0).
  { apply sum_from_zero, Forall_forall. intros x Hx.
    apply list_elem_of_In, in_map_iff in Hx as (r & <- & Hr).
    rewrite Forall_forall in Hall. apply Hall, list_elem_of_In, Hr. }
  case_bool_decide; [rewrite Hsum|]; reflexivity.
Qed.

End AllBlank.

(** X25: when no graded number has a text other than blank, as with an
    empty answer store, every question of the report is Skipped with
    final score 0, the summary counts no answered and no attempted
    question, and the average score is 0. *)
Theorem blank_store_report ground_truth answers :
  (forall q, 1 <= q <= 50 ->
             Str.whitespace_only (submitted_text answers q) = true) ->
  let r := report ground_truth answers in
  Forall (fun result => status result = Skipped
                        /\ (final_score result == 0)%Q)
         (questions r)
  /\ answered (summary r) = 0%nat
  /\ attempted (summary r) = 0%nat
  /\ skipped (summary r) = total_questions (summary r)
  /\ (average_score (summary r) == 0)%Q.
Proof.
  intros Hblank r.
  assert (Hall : Forall (fun result => status result = Skipped
                                       /\ (final_score result == 0)%Q)
                        (grade_questions ground_truth answers)).
  { rewrite grade_questions_spec. apply Forall_forall. intros result Hin.
    apply list_elem_of_omap in Hin as (q & Hq & Hres).
    apply elem_of_seqZ in Hq. unfold graded in Hres.
    destruct (ground_truth !! q) as [g|]; [|discriminate].
    injection Hres as <-. apply grade_answer_blank, Hblank. lia. }
  split; [exact Hall|]. apply (summary_all_skipped _ Hall).
Qed.

(** ** Token-limit classifier *)

Section TokenLimit.

Lemma occurs_in_trans (a b c : str) :
  Str.occurs_in a b -> Str.occurs_in b c -> Str.occurs_in a c.
Proof.
  intros (p1 & q1 & ->) (p2 & q2 & ->).
  exists (p2 ++ p1), (q1 ++ q2). rewrite <- !app_assoc. reflexivity.
Qed.

Lemma occurs_in_lower_any (a b : str) :
  Str.occurs_in a b -> Str.occurs_in (Str.lower a) (Str.lower b).
Proof.
  intros (p & q & ->). exists (Str.lower p), (Str.lower q).
  unfold Str.lower. rewrite !map_app. reflexivity.
Qed.

End TokenLimit.

(** X26: [is_token_limit_error] holds of a message exactly when one of
    the patterns occurs in the lower-cased message; so it holds of
    every message that contains a message of which it holds, it does
    not depend on the letter case of the message, and it does not hold
    of the empty message. *)
Theorem is_token_limit_error_spec :
  (forall error_msg,
     is_token_limit_error error_msg = true <->
     exists pattern, pattern ∈ token_limit_patterns
                     /\ Str.occurs_in pattern (Str.lower error_msg))
  /\ (forall inner outer,
        Str.occurs_in inner outer ->
        is_token_limit_error inner = true ->
        is_token_limit_error outer = true)
  /\ (forall msg1 msg2,
        Str.lower msg1 = Str.lower msg2 ->
        is_token_limit_error msg1 = is_token_limit_error msg2)
  /\ is_token_limit_error [] = false.
Proof.
  assert (Hspec : forall error_msg,
            is_token_limit_error error_msg = true <->
            exists pattern, pattern ∈ token_limit_patterns
                            /\ Str.occurs_in pattern (Str.lower error_msg)).
  { intros error_msg. unfold is_token_limit_error. rewrite existsb_exists.
    split; intros (pattern & Hin & H); exists pattern.
    - split; [apply list_elem_of_In, Hin|apply contains_spec, H].
    - split; [apply list_elem_of_In, Hin|apply contains_spec, H]. }
  split; [exact Hspec|]. split; [|split].
  - intros inner outer Hocc. rewrite !Hspec.
    intros (pattern & Hin & H). exists pattern. split; [exact Hin|].
    eapply occurs_in_trans; [exact H|]. apply occurs_in_lower_any, Hocc.
  - intros msg1 msg2 H. unfold is_token_limit_error. rewrite H. reflexivity.
  - reflexivity.
Qed.

(** ** Filing search *)

(** X27: [search_results] is a prefix of the filings of the response,
    empty when the response has no filings.  For a non-negative
    [top_n_results] it has that many filings, or all of them if there
    are fewer; for a negative one it is the filings without the last
    [-top_n_results]. *)
Theorem search_results_length {A} (filings : option (list A)) (n : Z) :
  let all := default [] filings in
  let results := search_results filings n in
  (exists rest, all = results ++ rest)
  /\ (0 <= n -> length results = Nat.min (Z.to_nat n) (length all))
  /\ (n < 0 -> length results = (length all - Z.to_nat (- n))%nat).
Proof.
  intros all results. unfold results, search_results, slice_to. fold all.
  split; [|split].
  - destruct (n <? 0); eexists; symmetry; apply take_drop.
  - intros Hn. rewrite (proj2 (Z.ltb_ge n 0)) by exact Hn.
    apply length_take.
  - intros Hn. rewrite (proj2 (Z.ltb_lt n 0)) by exact Hn.
    rewrite length_take. lia.
Qed.

(** ** The further properties on the sample data *)

Lemma categorize_difficulty_monotone_witness :
  (difficulty_rank (categorize_difficulty (py "Trends") 5)
   <= difficulty_rank (categorize_difficulty (py "Financial Analysis") 16))%nat.
Proof. apply categorize_difficulty_monotone. lia. Defined.

Lemma grade_sources_tiers_witness : grade_sources [filing] = Acceptable.
Proof. apply (grade_sources_tiers [filing]). reflexivity. Defined.

Lemma summary_averages_within_scale_witness :
  (0 <= average_score
          (calculate_summary
             [grade_answer 1 complete_answer (truth_with rubric_3_of_4);
              grade_answer 2 partial_answer (truth_with rubric_3_of_4)])
   <= 100)%Q.
Proof.
  apply summary_averages_within_scale.
  repeat constructor; vm_compute; discriminate.
Defined.


Lemma findall_numbers_tokens_witness :
  Re.findall_numbers (py "Guidance was raised twice") = [].
Proof.
  apply (proj2 (findall_numbers_tokens (py "Guidance was raised twice"))).
  reflexivity.
Defined.

Lemma bare_commas_always_met_witness :
  (check_criterion (py "Revenue, profit") (py "nothing") []).1 = true.
Proof.
  apply bare_commas_always_met.
  - reflexivity.
  - vm_compute. discriminate.
  - vm_compute. repeat constructor.
Defined.

Lemma blank_answer_scores_nothing_witness :
  status (grade_answer 1 (answer_of (py "   ")) (truth_with rubric_1_of_5))
  = Skipped.
Proof.
  apply (blank_answer_scores_nothing 1 (answer_of (py "   "))
           (truth_with rubric_1_of_5)).
  reflexivity.
Defined.

Lemma attempted_never_penalised_witness :
  has_contradictions
    (grade_answer 1 partial_answer (truth_with rubric_1_of_5)) = false.
Proof.
  apply (attempted_never_penalised 1 partial_answer (truth_with rubric_1_of_5)).
  vm_compute. reflexivity.
Defined.

Lemma other_operators_ignored_witness :
  grade_answer 1 complete_answer
    (with_rubric (truth_with [])
       (rubric_3_of_4 ++ [{| operator := py "style"; criteria := py "Be brief" |}]))
  = grade_answer 1 complete_answer (with_rubric (truth_with []) rubric_3_of_4).
Proof. apply other_operators_ignored. reflexivity. Defined.

Lemma rubric_order_irrelevant_witness :
  correctness_score
    (grade_answer 1 complete_answer (with_rubric (truth_with []) rubric_1_of_5))
  = correctness_score
      (grade_answer 1 complete_answer
         (with_rubric (truth_with []) (rev rubric_1_of_5))).
Proof.
  apply (rubric_order_irrelevant 1 complete_answer (truth_with [])
           rubric_1_of_5 (rev rubric_1_of_5)).
  apply Permutation_rev.
Defined.

Lemma load_answers_keys_witness :
  match load_answers sample_items with
  | Some answers => (size answers <= 4)%nat
  | None => False
  end.
Proof.
  destruct (load_answers sample_items) as [answers|] eqn:E.
  - exact (proj2 (load_answers_keys sample_items answers E)).
  - vm_compute in E. discriminate E.
Defined.

Lemma load_ground_truth_append_witness :
  match load_ground_truth (sample_rows ++ rows_51) with
  | Some extended =>
      exists ground_truth,
        load_ground_truth sample_rows = Some ground_truth
        /\ ground_truth ⊆ extended
  | None => False
  end.
Proof.
  destruct (load_ground_truth (sample_rows ++ rows_51)) as [extended|] eqn:E.
  - exact (load_ground_truth_append sample_rows rows_51 extended E).
  - vm_compute in E. discriminate E.
Defined.

Lemma ungraded_answers_ignored_witness :
  report one_question ∅
  = report one_question {[77 := complete_answer]}.
Proof.
  apply ungraded_answers_ignored. intros q Hq _.
  rewrite lookup_empty, lookup_singleton_ne by lia. reflexivity.
Defined.

Lemma blank_store_report_witness :
  (average_score (summary (report one_question ∅)) == 0)%Q.
Proof.
  apply (blank_store_report one_question ∅).
  intros q _. unfold submitted_text. rewrite lookup_empty. reflexivity.
Defined.

Lemma is_token_limit_error_spec_witness :
  is_token_limit_error (py "Request failed: context length exceeded") = true.
Proof.
  apply (proj1 (proj2 is_token_limit_error_spec) (py "context length")).
  - exists (py "Request failed: "), (py " exceeded"). reflexivity.
  - reflexivity.
Defined.

Lemma search_results_length_witness :
  length (search_results (Some [1; 2; 3]) (-1)) = 2%nat.
Proof.
  apply (proj2 (proj2 (search_results_length (Some [1; 2; 3]) (-1)))). lia.
Defined.
